(** * Static Code Analyzer: a shallow embedding of [code_analyzer.py]

    The development follows the layout of the Python module: the text
    primitives the rules rely on ([str] methods and the [re] module), the
    [Violation] record, the two check disciplines [LineCheck] and
    [AstCheck], the twelve concrete rules, the [Analyzer], and the
    module-level driver.  The properties of the engine are stated and
    proved after the definitions.

    A Python [str] is modelled by [string]; an [ascii] stands for the code
    point with the same number, so the model covers texts over U+0000 to
    U+00FF.  The syntax parser ([ast.parse]) and the file system ([os],
    [open]) are collaborators of the program and enter as a [Host]. *)

From Stdlib Require Import List String Ascii Bool Arith Lia.
From Stdlib Require Import Permutation Sorted DecimalString.
Import ListNotations.
Local Open Scope string_scope.
Local Open Scope list_scope.
Local Open Scope nat_scope.

Set Warnings "-register-all".

(** ** Characters *)

Module Char.

Definition ord (c : ascii) : nat := nat_of_ascii c.

Definition between (lo hi : nat) (c : ascii) : bool :=
  (lo <=? ord c) && (ord c <=? hi).

Definition one (x : ascii) (c : ascii) : bool := Ascii.eqb c x.

Definition upper : ascii -> bool := between 65 90.      (* [A-Z] *)
Definition lower : ascii -> bool := between 97 122.     (* [a-z] *)
Definition digit : ascii -> bool := between 48 57.      (* [0-9] *)

(** [str.isspace] on one character, which is also the class [\s] of a
    [str] pattern: TAB..CR, FS..US, SPACE, NEL and NBSP. *)
Definition isspace (c : ascii) : bool :=
  between 9 13 c || between 28 31 c || (ord c =? 32)
  || (ord c =? 133) || (ord c =? 160).

(** The line boundaries of [str.splitlines]: LF, VT, FF, CR, FS, GS, RS
    and NEL.  (US is white space but not a boundary.) *)
Definition islinebreak (c : ascii) : bool :=
  between 10 13 c || between 28 30 c || (ord c =? 133).

(** [str.isalnum] on one character of the Latin-1 range. *)
Definition isalnum (c : ascii) : bool :=
  upper c || lower c || digit c
  || (ord c =? 170) || (ord c =? 178) || (ord c =? 179) || (ord c =? 181)
  || (ord c =? 185) || (ord c =? 186) || between 188 190 c
  || between 192 214 c || between 216 246 c || between 248 255 c.

(** The class [\w] of a [str] pattern. *)
Definition word (c : ascii) : bool := isalnum c || one "_"%char c.

(** The class [.] without DOTALL. *)
Definition dot (c : ascii) : bool := negb (one "010"%char c).

(** A cased ASCII letter under IGNORECASE matches both of its cases. *)
Definition swapcase (x : ascii) : ascii :=
  if upper x then ascii_of_nat (ord x + 32)
  else if lower x then ascii_of_nat (ord x - 32)
  else x.

Definition one_nocase (x : ascii) (c : ascii) : bool :=
  one x c || one (swapcase x) c.

End Char.

(** ** The [str] methods used by the rules *)

Module Str.

Definition len (s : string) : nat := String.length s.

(** Truth value of a [str] in a condition: non-empty. *)
Definition truthy (s : string) : bool :=
  match s with EmptyString => false | String _ _ => true end.

(** [s.lstrip(chars)] for a one-character set, and [s.lstrip()]. *)
Fixpoint lstrip_by (p : ascii -> bool) (s : string) : string :=
  match s with
  | String c s' => if p c then lstrip_by p s' else s
  | EmptyString => EmptyString
  end.

Fixpoint rstrip_by (p : ascii -> bool) (s : string) : string :=
  match s with
  | String c s' =>
      match rstrip_by p s' with
      | EmptyString => if p c then EmptyString else String c EmptyString
      | r => String c r
      end
  | EmptyString => EmptyString
  end.

Definition lstrip_char (x : ascii) : string -> string := lstrip_by (Char.one x).

(** [s.strip()]: white space removed at both ends. *)
Definition strip (s : string) : string :=
  rstrip_by Char.isspace (lstrip_by Char.isspace s).

Definition startswith (s pre : string) : bool := String.prefix pre s.

Fixpoint rev_acc (s acc : string) : string :=
  match s with
  | String c s' => rev_acc s' (String c acc)
  | EmptyString => acc
  end.

Definition rev (s : string) : string := rev_acc s EmptyString.

Definition endswith (s suf : string) : bool :=
  String.prefix (rev suf) (rev s).

(** [x in s] for a one-character [x]. *)
Fixpoint contains (x : ascii) (s : string) : bool :=
  match s with
  | String c s' => Char.one x c || contains x s'
  | EmptyString => false
  end.

(** [s.split(x, maxsplit=1)[0]]: the text before the first [x], or all
    of [s] when [x] does not occur. *)
Fixpoint split_first (x : ascii) (s : string) : string :=
  match s with
  | String c s' => if Char.one x c then EmptyString else String c (split_first x s')
  | EmptyString => EmptyString
  end.

(** [s.splitlines()].  [cur] holds the current line, reversed.  A CR
    directly followed by LF is one boundary; a boundary at the very end
    of the text opens no further line. *)
Fixpoint splitlines_from (cur : string) (s : string) : list string :=
  match s with
  | EmptyString =>
      match cur with
      | EmptyString => []
      | _ => [rev cur]
      end
  | String c s' =>
      if Char.islinebreak c then
        match Char.ord c =? 13, s' with
        | true, String c' s'' =>
            if Char.one "010"%char c' then rev cur :: splitlines_from EmptyString s''
            else rev cur :: splitlines_from EmptyString s'
        | _, _ => rev cur :: splitlines_from EmptyString s'
        end
      else splitlines_from (String c cur) s'
  end.

Definition splitlines (s : string) : list string :=
  splitlines_from EmptyString s.

(** [str(n)] for a non-negative [int]. *)
Definition of_int (n : nat) : string := NilZero.string_of_uint (Nat.to_uint n).

End Str.

(** ** The [re] module: a backtracking matcher

    Patterns are abstract syntax; the matcher is the usual backtracking
    one written with continuations, so that alternation is ordered, [*]
    is greedy and the first successful path decides the groups, as in
    [re].  No pattern of the program uses MULTILINE or DOTALL. *)

Module Re.

Inductive regex : Type :=
| Eps                                  (* the empty pattern *)
| Chr (p : ascii -> bool)              (* a literal, a class or [.] *)
| Cat (r1 r2 : regex)                  (* r1 r2 *)
| Alt (r1 r2 : regex)                  (* r1|r2 *)
| Star (r : regex)                     (* r*, greedy *)
| Group (n : nat) (r : regex)          (* (r), the n-th group *)
| Bol                                  (* ^ *)
| Eol                                  (* $ *)
| Ahead (r : regex).                   (* (?=r) *)

Definition Plus (r : regex) : regex := Cat r (Star r).

(** A literal text, and a literal text under IGNORECASE. *)
Fixpoint Lit (s : string) : regex :=
  match s with
  | EmptyString => Eps
  | String c EmptyString => Chr (Char.one c)
  | String c s' => Cat (Chr (Char.one c)) (Lit s')
  end.

Fixpoint LitI (s : string) : regex :=
  match s with
  | EmptyString => Eps
  | String c EmptyString => Chr (Char.one_nocase c)
  | String c s' => Cat (Chr (Char.one_nocase c)) (LitI s')
  end.

(** The groups of a match: number and matched text. *)
Definition groups : Type := list (nat * string).

Definition set_group (n : nat) (v : string) (g : groups) : groups :=
  (n, v) :: filter (fun e => negb (fst e =? n)) g.

Fixpoint group (g : groups) (n : nat) : option string :=
  match g with
  | [] => None
  | (k, v) :: g' => if k =? n then Some v else group g' n
  end.

(** [$] holds at the end of the text and just before a final newline. *)
Definition at_end (s : string) : bool :=
  match s with
  | EmptyString => true
  | String c EmptyString => Char.one "010"%char c
  | _ => false
  end.

Definition cont : Type := nat -> string -> groups -> option groups.
Definition matcher : Type := nat -> string -> groups -> cont -> option groups.

(** The iteration of [r*]: one more round of the body first, the rest
    of the pattern otherwise.  A round has to advance in the text; the
    text left bounds the number of rounds. *)
Fixpoint star_loop (body : matcher) (rounds : nat) : matcher :=
  fun pos s g k =>
    match rounds with
    | 0 => k pos s g
    | S rounds' =>
        match body pos s g
                (fun pos' s' g' =>
                   if pos <? pos' then star_loop body rounds' pos' s' g' k
                   else None) with
        | Some m => Some m
        | None => k pos s g
        end
    end.

(** [run r pos s g k]: match [r] at offset [pos], where [s] is the text
    from [pos] on, then continue with [k]. *)
Fixpoint run (r : regex) : matcher :=
  match r with
  | Eps => fun pos s g k => k pos s g
  | Chr p => fun pos s g k =>
      match s with
      | String c s' => if p c then k (S pos) s' g else None
      | EmptyString => None
      end
  | Cat r1 r2 => fun pos s g k =>
      run r1 pos s g (fun pos' s' g' => run r2 pos' s' g' k)
  | Alt r1 r2 => fun pos s g k =>
      match run r1 pos s g k with
      | Some m => Some m
      | None => run r2 pos s g k
      end
  | Star r' => fun pos s g k =>
      star_loop (run r') (S (String.length s)) pos s g k
  | Group n r' => fun pos s g k =>
      run r' pos s g
        (fun pos' s' g' => k pos' s' (set_group n (substring 0 (pos' - pos) s) g'))
  | Bol => fun pos s g k => if pos =? 0 then k pos s g else None
  | Eol => fun pos s g k => if at_end s then k pos s g else None
  | Ahead r' => fun pos s g k =>
      match run r' pos s g (fun _ _ g' => Some g') with
      | Some g' => k pos s g'
      | None => None
      end
  end.

(** A match attempt at one offset; group 0 is the whole match. *)
Definition match_at (r : regex) (pos : nat) (s : string) : option groups :=
  run r pos s []
    (fun pos' _ g => Some (set_group 0 (substring 0 (pos' - pos) s) g)).

(** [re.match]: at the beginning of the text only. *)
Definition match_ (r : regex) (s : string) : option groups := match_at r 0 s.

(** [re.search]: the first offset at which the pattern matches. *)
Fixpoint search_from (r : regex) (pos : nat) (s : string) : option groups :=
  match match_at r pos s with
  | Some m => Some m
  | None =>
      match s with
      | String _ s' => search_from r (S pos) s'
      | EmptyString => None
      end
  end.

Definition search (r : regex) (s : string) : option groups := search_from r 0 s.

(** Truth value of a match object or [None]. *)
Definition found (m : option groups) : bool :=
  match m with Some _ => true | None => false end.

End Re.

Import Re.

(** ** The patterns of the program *)

Definition any_of (ps : list (ascii -> bool)) (c : ascii) : bool :=
  existsb (fun p => p c) ps.

Definition none_of (ps : list (ascii -> bool)) (c : ascii) : bool :=
  negb (any_of ps c).

(** [CAMEL_CASE = '^[A-Z][a-zA-Z]*$'] *)
Definition CAMEL_CASE : regex :=
  Cat Bol
  (Cat (Chr Char.upper)
  (Cat (Star (Chr (any_of [Char.lower; Char.upper])))
       Eol)).

(** [SNAKE_CASE]: between [^(] and [)$], the ordered alternatives
    [_*[a-z]+[a-z_0-9]*] and [[a-z]+(_[a-z0-9]+)*]; the alternation is
    group 1 and the repeated [(_[a-z0-9]+)] is group 2. *)
Definition SNAKE_CASE : regex :=
  Cat Bol
  (Cat (Group 1
          (Alt (Cat (Star (Chr (Char.one "_"%char)))
               (Cat (Plus (Chr Char.lower))
                    (Star (Chr (any_of [Char.lower; Char.one "_"%char; Char.digit])))))
               (Cat (Plus (Chr Char.lower))
                    (Star (Group 2
                             (Cat (Chr (Char.one "_"%char))
                                  (Plus (Chr (any_of [Char.lower; Char.digit])))))))))
       Eol).

(** [r'^[^#]*;\s*(?=#|$)'] *)
Definition SEMICOLON : regex :=
  Cat Bol
  (Cat (Star (Chr (none_of [Char.one "#"%char])))
  (Cat (Chr (Char.one ";"%char))
  (Cat (Star (Chr Char.isspace))
       (Ahead (Alt (Chr (Char.one "#"%char)) Eol))))).

(** [r'#.*TODO'] with [RegexFlag.IGNORECASE] *)
Definition TODO : regex :=
  Cat (Chr (Char.one "#"%char)) (Cat (Star (Chr Char.dot)) (LitI "TODO")).

(** [r'class\s\s+.*'] and [r'def\s\s+.*'] *)
Definition CLASS_SPACES : regex :=
  Cat (Lit "class") (Cat (Chr Char.isspace) (Cat (Plus (Chr Char.isspace)) (Star (Chr Char.dot)))).

Definition DEF_SPACES : regex :=
  Cat (Lit "def") (Cat (Chr Char.isspace) (Cat (Plus (Chr Char.isspace)) (Star (Chr Char.dot)))).

(** [r'class\s+(\w+):'] *)
Definition CLASS_NAME : regex :=
  Cat (Lit "class")
  (Cat (Plus (Chr Char.isspace))
  (Cat (Group 1 (Plus (Chr Char.word)))
       (Chr (Char.one ":"%char)))).

(** [r'def\s+([\w_]+)\('] *)
Definition DEF_NAME : regex :=
  Cat (Lit "def")
  (Cat (Plus (Chr Char.isspace))
  (Cat (Group 1 (Plus (Chr (any_of [Char.word; Char.one "_"%char]))))
       (Chr (Char.one "("%char)))).

(** ** The syntax tree of the [ast] module

    Only the node classes the rules inspect are kept apart, with the
    fields of [ast] in their declared order; every other node class
    ([Module], [ClassDef], [AsyncFunctionDef], [Lambda], [Call], ...) is
    an [Other] node carrying its child nodes.  [arguments], [arg] and the
    expression contexts are nodes of the tree too and are met by
    [ast.walk]. *)

Inductive expr_context : Type := Load | Store | Del.

Inductive AST : Type :=
| FunctionDef (lineno : nat) (name : string) (args : arguments)
    (body : list AST) (decorator_list : list AST) (returns : option AST)
| Assign (lineno : nat) (targets : list AST) (value : AST)
| Name (lineno : nat) (id : string) (ctx : expr_context)
| List_ (lineno : nat) (elts : list AST) (ctx : expr_context)
| Dict (lineno : nat) (keys : list (option AST)) (values : list AST)
| Set_ (lineno : nat) (elts : list AST)
| Arguments (a : arguments)
| Arg (a : arg)
| Context (c : expr_context)
| Other (children : list AST)
with arguments : Type :=
| mk_arguments (posonlyargs : list arg) (args : list arg) (vararg : option arg)
    (kwonlyargs : list arg) (kw_defaults : list (option AST))
    (kwarg : option arg) (defaults : list AST)
with arg : Type :=
| mk_arg (lineno : nat) (name : string) (annotation : option AST).

Definition arg_name (a : arg) : string :=
  match a with mk_arg _ name _ => name end.

Definition optional {A : Type} (o : option A) : list A :=
  match o with Some x => [x] | None => [] end.

(** [ast.iter_child_nodes]: the nodes held by the fields, field by field;
    an absent optional field or list item ([None]) yields nothing. *)
Definition iter_child_nodes (node : AST) : list AST :=
  match node with
  | FunctionDef _ _ a body decorator_list returns =>
      Arguments a :: body ++ decorator_list ++ optional returns
  | Assign _ targets value => targets ++ [value]
  | Name _ _ c => [Context c]
  | List_ _ elts c => elts ++ [Context c]
  | Dict _ keys values => flat_map optional keys ++ values
  | Set_ _ elts => elts
  | Arguments (mk_arguments po ar va kwo kwd kwa de) =>
      map Arg po ++ map Arg ar ++ map Arg (optional va) ++ map Arg kwo
      ++ flat_map optional kwd ++ map Arg (optional kwa) ++ de
  | Arg (mk_arg _ _ annotation) => optional annotation
  | Context _ => []
  | Other children => children
  end.

Definition on_optional {A B : Type} (f : A -> list B) (o : option A) : list B :=
  match o with Some x => f x | None => [] end.

(** The nodes of a tree, parents first. *)
Fixpoint preorder (node : AST) : list AST :=
  node ::
  match node with
  | FunctionDef _ _ a body decorator_list returns =>
      Arguments a :: preorder_arguments a ++ flat_map preorder body
      ++ flat_map preorder decorator_list ++ on_optional preorder returns
  | Assign _ targets value => flat_map preorder targets ++ preorder value
  | Name _ _ c => [Context c]
  | List_ _ elts c => flat_map preorder elts ++ [Context c]
  | Dict _ keys values =>
      flat_map (on_optional preorder) keys
      ++ flat_map preorder values
  | Set_ _ elts => flat_map preorder elts
  | Arguments a => preorder_arguments a
  | Arg a => preorder_arg a
  | Context _ => []
  | Other children => flat_map preorder children
  end
with preorder_arguments (a : arguments) : list AST :=
  match a with
  | mk_arguments po ar va kwo kwd kwa de =>
      flat_map (fun x => Arg x :: preorder_arg x) po
      ++ flat_map (fun x => Arg x :: preorder_arg x) ar
      ++ on_optional (fun x => Arg x :: preorder_arg x) va
      ++ flat_map (fun x => Arg x :: preorder_arg x) kwo
      ++ flat_map (on_optional preorder) kwd
      ++ on_optional (fun x => Arg x :: preorder_arg x) kwa
      ++ flat_map preorder de
  end
with preorder_arg (a : arg) : list AST :=
  match a with
  | mk_arg _ _ annotation => on_optional preorder annotation
  end.

(** [ast.walk]: a queue of nodes still to visit; the node taken from the
    front is yielded and its children join at the back.  The queue
    empties after as many rounds as the tree has nodes. *)
Fixpoint walk_loop (rounds : nat) (todo : list AST) : list AST :=
  match rounds, todo with
  | S rounds', node :: todo' =>
      node :: walk_loop rounds' (todo' ++ iter_child_nodes node)
  | _, _ => []
  end.

Definition walk (node : AST) : list AST :=
  walk_loop (List.length (preorder node)) [node].

(** ** The collaborators of the program *)

Inductive exn : Type :=
| SyntaxError        (* raised by [ast.parse] *)
| OSError            (* raised by [open] or [read] *)
| IndexError.        (* raised by [sys.argv[1]] *)

Inductive result (A : Type) : Type :=
| Ok (a : A)
| Raised (e : exn).

Arguments Ok {A} a.
Arguments Raised {A} e.

Record Host : Type := {
  isdir : string -> bool;                      (* os.path.isdir *)
  isfile : string -> bool;                     (* os.path.isfile *)
  os_walk : string -> list (string * list string * list string);
  path_join : string -> string -> string;      (* os.path.join *)
  read_text : string -> option string;         (* open(p, 'r') and read() *)
  parse : string -> option AST                 (* ast.parse *)
}.

(** A procedure of the program: the lines it printed and how it ended. *)
Definition proc (A : Type) : Type := list string * result A.

Definition ret {A : Type} (a : A) : proc A := ([], Ok a).

Definition raise {A : Type} (e : exn) : proc A := ([], Raised e).

Definition print (line : string) : proc unit := ([line], Ok tt).

Definition bind {A B : Type} (m : proc A) (f : A -> proc B) : proc B :=
  match m with
  | (out, Ok a) => let (out', r) := f a in (out ++ out', r)
  | (out, Raised e) => (out, Raised e)
  end.

Notation "x <- m ;; k" := (bind m (fun x => k))
  (at level 61, m at next level, right associativity).
Notation "m ;;; k" := (bind m (fun _ => k))
  (at level 61, right associativity).

(** A [for] loop whose body may print and raise. *)
Fixpoint for_each {A : Type} (l : list A) (body : A -> proc unit) : proc unit :=
  match l with
  | [] => ret tt
  | x :: l' => body x ;;; for_each l' body
  end.

Definition stdout {A : Type} (m : proc A) : list string := fst m.
Definition outcome {A : Type} (m : proc A) : result A := snd m.

(** ** Violation *)

Record Violation : Type := mkViolation {
  src_path : string;
  line_no : nat;
  code : string;
  message : string
}.

(** [Violation.__str__] *)
Definition Violation_str (v : Violation) : string :=
  (src_path v ++ ": Line " ++ Str.of_int (line_no v) ++ ": " ++ code v
   ++ " " ++ message v)%string.

(** [sorted(l, key=...)]: the stable sort, as insertion from the right. *)
Fixpoint insert_by {A : Type} (key : A -> nat) (x : A) (l : list A) : list A :=
  match l with
  | [] => [x]
  | y :: l' => if key x <=? key y then x :: l else y :: insert_by key x l'
  end.

Definition sorted {A : Type} (key : A -> nat) (l : list A) : list A :=
  fold_right (insert_by key) [] l.

(** ** The two check disciplines *)

(** The [check] method every rule offers: all violations of one source
    text, or the exception it ended with. *)
Definition Check : Type := Host -> string -> string -> result (list Violation).

Module LineCheck.

(** The loop of [check]: [line_no] counts the lines from 1. *)
Fixpoint scan (check_line : string -> string -> nat -> option Violation)
    (src_path : string) (lines : list string) (line_no : nat) : list Violation :=
  match lines with
  | [] => []
  | line :: lines' =>
      match check_line src_path line line_no with
      | Some violation => violation :: scan check_line src_path lines' (S line_no)
      | None => scan check_line src_path lines' (S line_no)
      end
  end.

Definition check (check_line : string -> string -> nat -> option Violation) : Check :=
  fun _ src_path source => Ok (scan check_line src_path (Str.splitlines source) 1).

End LineCheck.

Module AstCheck.

Fixpoint visit (check_node : string -> AST -> option Violation)
    (src_path : string) (nodes : list AST) : list Violation :=
  match nodes with
  | [] => []
  | node :: nodes' =>
      match check_node src_path node with
      | Some violation => violation :: visit check_node src_path nodes'
      | None => visit check_node src_path nodes'
      end
  end.

(** [ast.parse] comes first; its exception is not handled here. *)
Definition check (check_node : string -> AST -> option Violation) : Check :=
  fun host src_path source =>
    match parse host source with
    | None => Raised SyntaxError
    | Some tree => Ok (visit check_node src_path (walk tree))
    end.

End AstCheck.

(** ** The twelve rules *)

Module LengthCheck.
Definition check_line (src_path line : string) (line_no : nat) : option Violation :=
  if 79 <? Str.len line
  then Some (mkViolation src_path line_no "S001" "Too Long")
  else None.
Definition check : Check := LineCheck.check check_line.
End LengthCheck.

Module IndentCheck.
Definition check_line (src_path line : string) (line_no : nat) : option Violation :=
  if negb ((Str.len line - Str.len (Str.lstrip_char " " line)) mod 4 =? 0)
  then Some (mkViolation src_path line_no "S002" "Indentation is not a multiple of four")
  else None.
Definition check : Check := LineCheck.check check_line.
End IndentCheck.

Module SemicolonCheck.
Definition check_line (src_path line : string) (line_no : nat) : option Violation :=
  if found (search SEMICOLON line)
  then Some (mkViolation src_path line_no "S003" "Unnecessary semicolon after a statement")
  else None.
Definition check : Check := LineCheck.check check_line.
End SemicolonCheck.

Module SpacesBeforeCommentCheck.
Definition check_line (src_path line : string) (line_no : nat) : option Violation :=
  if Str.contains "#" line && negb (Str.startswith (Str.strip line) "#") then
    let code_part := Str.split_first "#" line in
    if negb (Str.endswith code_part "  ")
    then Some (mkViolation src_path line_no "S004" "Less than two spaces before inline comments")
    else None
  else None.
Definition check : Check := LineCheck.check check_line.
End SpacesBeforeCommentCheck.

Module TodoCheck.
Definition check_line (src_path line : string) (line_no : nat) : option Violation :=
  if found (search TODO line)
  then Some (mkViolation src_path line_no "S005" "TODO found")
  else None.
Definition check : Check := LineCheck.check check_line.
End TodoCheck.

Module TwoManyBlankLinesCheck.

(** [lines[i]]; the rule reads it only for [0 <= i < idx], inside the
    list. *)
Definition item (lines : list string) (i : nat) : string := nth i lines "".

(** The condition of the loop body at index [idx]. *)
Definition fires (lines : list string) (line : string) (idx : nat) : bool :=
  (2 <? idx) && Str.truthy line
  && negb (Str.truthy (Str.strip (item lines (idx - 1))))
  && negb (Str.truthy (Str.strip (item lines (idx - 2))))
  && negb (Str.truthy (Str.strip (item lines (idx - 3)))).

(** The loop of the overriding [check]: [rest] are the lines from
    [idx] on. *)
Fixpoint scan (src_path : string) (lines rest : list string) (idx : nat)
    : list Violation :=
  match rest with
  | [] => []
  | line :: rest' =>
      if fires lines line idx then
        let message := "More than two blank lines preceding a code line" in
        mkViolation src_path (idx + 1) "S006" message
          :: scan src_path lines rest' (S idx)
      else scan src_path lines rest' (S idx)
  end.

Definition check : Check :=
  fun _ src_path source =>
    let lines := Str.splitlines source in
    Ok (scan src_path lines lines 0).

End TwoManyBlankLinesCheck.

Module ConstructionSpaceCheck.
Definition check_line (src_path line : string) (line_no : nat) : option Violation :=
  if Str.startswith (Str.strip line) "class" && found (search CLASS_SPACES (Str.strip line))
  then Some (mkViolation src_path line_no "S007" "Too many spaces after 'class'")
  else if Str.startswith (Str.strip line) "def" && found (search DEF_SPACES (Str.strip line))
  then Some (mkViolation src_path line_no "S007" "Too many spaces after 'def'")
  else None.
Definition check : Check := LineCheck.check check_line.
End ConstructionSpaceCheck.

(** [match.group(1)]; group 1 takes part in every match of the two
    patterns it is asked of. *)
Definition group1 (m : groups) : string :=
  match group m 1 with Some v => v | None => "" end.

Module ClassNameCheck.
Definition check_line (src_path line : string) (line_no : nat) : option Violation :=
  match search CLASS_NAME line with
  | Some m =>
      if negb (found (match_ CAMEL_CASE (group1 m)))
      then Some (mkViolation src_path line_no "S008"
                   ("Class name '" ++ group1 m ++ "' should use CamelCase")%string)
      else None
  | None => None
  end.
Definition check : Check := LineCheck.check check_line.
End ClassNameCheck.

Module FunctionNameCheck.
Definition check_line (src_path line : string) (line_no : nat) : option Violation :=
  match search DEF_NAME line with
  | Some m =>
      if negb (found (match_ SNAKE_CASE (group1 m)))
      then Some (mkViolation src_path line_no "S009"
                   ("Function name '" ++ group1 m ++ "' should use snake_case")%string)
      else None
  | None => None
  end.
Definition check : Check := LineCheck.check check_line.
End FunctionNameCheck.

Module ArgumentNameCheck.

(** The loop over [node.args.args], left at the first offender. *)
Fixpoint for_args (src_path : string) (lineno : nat) (args : list arg)
    : option Violation :=
  match args with
  | [] => None
  | a :: args' =>
      if negb (found (match_ SNAKE_CASE (arg_name a)))
      then Some (mkViolation src_path lineno "S010" "Argument name should use snake_case")
      else for_args src_path lineno args'
  end.

Definition check_node (src_path : string) (node : AST) : option Violation :=
  match node with
  | FunctionDef lineno _ (mk_arguments _ args _ _ _ _ _) _ _ _ =>
      for_args src_path lineno args
  | _ => None
  end.

Definition check : Check := AstCheck.check check_node.

End ArgumentNameCheck.

Module VariableNameCheck.

Fixpoint for_targets (src_path : string) (lineno : nat) (targets : list AST)
    : option Violation :=
  match targets with
  | [] => None
  | Name _ id _ :: targets' =>
      if negb (found (match_ SNAKE_CASE id))
      then Some (mkViolation src_path lineno "S011" "Variable should be written in snake_case")
      else for_targets src_path lineno targets'
  | _ :: targets' => for_targets src_path lineno targets'
  end.

Definition check_node (src_path : string) (node : AST) : option Violation :=
  match node with
  | Assign lineno targets _ => for_targets src_path lineno targets
  | _ => None
  end.

Definition check : Check := AstCheck.check check_node.

End VariableNameCheck.

Module DefaultMutableCheck.

(** [isinstance(default, (ast.List, ast.Dict, ast.Set))] *)
Definition is_mutable_literal (default : AST) : bool :=
  match default with
  | List_ _ _ _ | Dict _ _ _ | Set_ _ _ => true
  | _ => false
  end.

Fixpoint for_defaults (src_path : string) (lineno : nat) (defaults : list AST)
    : option Violation :=
  match defaults with
  | [] => None
  | default :: defaults' =>
      if is_mutable_literal default
      then Some (mkViolation src_path lineno "S012" "Default argument value is mutable")
      else for_defaults src_path lineno defaults'
  end.

Definition check_node (src_path : string) (node : AST) : option Violation :=
  match node with
  | FunctionDef lineno _ (mk_arguments _ _ _ _ _ _ defaults) _ _ _ =>
      for_defaults src_path lineno defaults
  | _ => None
  end.

Definition check : Check := AstCheck.check check_node.

End DefaultMutableCheck.

(** ** Analyzer *)

Module Analyzer.

Definition checks : list Check :=
  [ LengthCheck.check; IndentCheck.check; SemicolonCheck.check;
    SpacesBeforeCommentCheck.check; TodoCheck.check;
    TwoManyBlankLinesCheck.check; ConstructionSpaceCheck.check;
    ClassNameCheck.check; FunctionNameCheck.check; ArgumentNameCheck.check;
    VariableNameCheck.check; DefaultMutableCheck.check ].

(** The loop over [self.checks]: every violation is appended to
    [violations]; an exception of a check ends the loop. *)
Fixpoint run_checks (host : Host) (cs : list Check) (src_path source : string)
    (violations : list Violation) : result (list Violation) :=
  match cs with
  | [] => Ok violations
  | c :: cs' =>
      match c host src_path source with
      | Ok found_here => run_checks host cs' src_path source (violations ++ found_here)
      | Raised e => Raised e
      end
  end.

Definition check (host : Host) (src_path : string) : proc unit :=
  match read_text host src_path with
  | None => raise OSError
  | Some source =>
      match run_checks host checks src_path source [] with
      | Raised e => raise e
      | Ok violations =>
          let sorted_sorted := sorted line_no violations in
          for_each sorted_sorted (fun violation => print (Violation_str violation))
      end
  end.

End Analyzer.

(** ** The driver at module level *)

Definition main (host : Host) (argv : list string) : proc unit :=
  match nth_error argv 1 with
  | None => raise IndexError
  | Some path_arg =>
      if isdir host path_arg then
        for_each (os_walk host path_arg)
          (fun '(root, dirs, files) =>
             for_each files
               (fun name => Analyzer.check host (path_join host root name)))
      else if isfile host path_arg then Analyzer.check host path_arg
      else ret tt
  end.

(** ** Notions used in the statements *)

(** The order [sorted] leaves behind when the elements came ordered by
    [R]: by key first, by [R] at equal keys. *)
Definition key_then {A : Type} (key : A -> nat) (R : A -> A -> Prop) (a b : A) : Prop :=
  key a < key b \/ (key a = key b /\ R a b).

(** The codes in the order in which the rules are declared, and the
    place of a code in that order. *)
Definition codes : list string :=
  [ "S001"; "S002"; "S003"; "S004"; "S005"; "S006";
    "S007"; "S008"; "S009"; "S010"; "S011"; "S012" ].

Fixpoint index_of (c : string) (l : list string) : nat :=
  match l with
  | [] => 0
  | x :: l' => if String.eqb c x then 0 else S (index_of c l')
  end.

Definition rule_no (c : string) : nat := index_of c codes.

Definition declared_order (a b : Violation) : Prop :=
  rule_no (code a) <= rule_no (code b).

(** What each rule finds in a text whose tree is [tree], rule by rule. *)
Definition by_lines (check_line : string -> string -> nat -> option Violation)
    (path source : string) : list Violation :=
  LineCheck.scan check_line path (Str.splitlines source) 1.

Definition by_nodes (check_node : string -> AST -> option Violation)
    (path : string) (tree : AST) : list Violation :=
  AstCheck.visit check_node path (walk tree).

Definition found_by_rule (path source : string) (tree : AST) : list (list Violation) :=
  [ by_lines LengthCheck.check_line path source;
    by_lines IndentCheck.check_line path source;
    by_lines SemicolonCheck.check_line path source;
    by_lines SpacesBeforeCommentCheck.check_line path source;
    by_lines TodoCheck.check_line path source;
    TwoManyBlankLinesCheck.scan path (Str.splitlines source) (Str.splitlines source) 0;
    by_lines ConstructionSpaceCheck.check_line path source;
    by_lines ClassNameCheck.check_line path source;
    by_lines FunctionNameCheck.check_line path source;
    by_nodes ArgumentNameCheck.check_node path tree;
    by_nodes VariableNameCheck.check_node path tree;
    by_nodes DefaultMutableCheck.check_node path tree ].

Definition detected (path source : string) (tree : AST) : list Violation :=
  List.concat (found_by_rule path source tree).

(** The nine rules that do not parse, and what they find. *)
Definition line_checks : list Check := firstn 9 Analyzer.checks.

Definition detected_by_lines (path source : string) : list Violation :=
  List.concat (firstn 9 (found_by_rule path source (Other []))).

(** The report line of a violation of the file [path]. *)
Definition report_line (path : string) (v : Violation) : string :=
  (path ++ ": Line " ++ Str.of_int (line_no v) ++ ": " ++ code v ++ " " ++ message v)%string.

(** The files of a directory run, in the order of discovery. *)
Definition discovered (host : Host) (path_arg : string) : list string :=
  flat_map (fun '(root, dirs, files) => map (path_join host root) files)
           (os_walk host path_arg).

(** The line a node starts at, for the node classes that carry one here. *)
Definition node_lineno (node : AST) : option nat :=
  match node with
  | FunctionDef lineno _ _ _ _ _ | Assign lineno _ _ | Name lineno _ _
  | List_ lineno _ _ | Dict lineno _ _ | Set_ lineno _ => Some lineno
  | Arg (mk_arg lineno _ _) => Some lineno
  | _ => None
  end.

(** [re.match(SNAKE_CASE, name)] and [re.match(CAMEL_CASE, name)] as
    conditions. *)
Definition snake_case (name : string) : bool := found (match_ SNAKE_CASE name).
Definition camel_case (name : string) : bool := found (match_ CAMEL_CASE name).

(** [node.args.args] and [node.args.defaults]. *)
Definition args_args (a : arguments) : list arg :=
  match a with mk_arguments _ args _ _ _ _ _ => args end.

Definition args_defaults (a : arguments) : list AST :=
  match a with mk_arguments _ _ _ _ _ _ defaults => defaults end.

(** All parameters of a definition: positional-only, ordinary, [*name],
    keyword-only and [**name]; and all their default values. *)
Definition parameters (a : arguments) : list arg :=
  match a with
  | mk_arguments po ar va kwo _ kwa _ => po ++ ar ++ optional va ++ kwo ++ optional kwa
  end.

Definition default_values (a : arguments) : list AST :=
  match a with
  | mk_arguments _ _ _ _ kwd _ de => de ++ flat_map optional kwd
  end.

(** The nodes on which S010 and S012 act. *)
Definition bad_argument (node : AST) : bool :=
  match node with
  | FunctionDef _ _ a _ _ _ => existsb (fun x => negb (snake_case (arg_name x))) (args_args a)
  | _ => false
  end.

Definition mutable_default (node : AST) : bool :=
  match node with
  | FunctionDef _ _ a _ _ _ => existsb DefaultMutableCheck.is_mutable_literal (args_defaults a)
  | _ => false
  end.

Definition header_line (node : AST) : nat :=
  match node_lineno node with Some n => n | None => 0 end.

(** Texts made of characters of one class. *)
Fixpoint all_chars (p : ascii -> bool) (s : string) : bool :=
  match s with
  | EmptyString => true
  | String c s' => p c && all_chars p s'
  end.

(** A class header on one line: indentation, the keyword, white space,
    the name, the list of bases in parentheses if any, the colon and the
    rest of the line. *)
Definition class_header (indent ws name bases rest : string) : string :=
  (indent ++ "class" ++ ws ++ name ++ bases ++ ":" ++ rest)%string.

(** ** A small project to run the program on *)

Definition LF : string := String "010"%char EmptyString.

(** [class fooBar:] with a method [Run(self, myArg, x=[])] on line 2. *)
Definition src_a : string :=
  ("class fooBar:" ++ LF ++ "    def Run(self, myArg, x=[]): pass" ++ LF)%string.

Definition tree_a : AST :=
  Other [ Other [
    FunctionDef 2 "Run"
      (mk_arguments []
         [mk_arg 2 "self" None; mk_arg 2 "myArg" None; mk_arg 2 "x" None]
         None [] [] None [List_ 2 [] Load])
      [Other []] [] None ] ].

(** [X = 1] *)
Definition src_b : string := ("X = 1" ++ LF)%string.

Definition tree_b : AST := Other [ Assign 1 [Name 1 "X" Store] (Other []) ].

(** A text no parser accepts. *)
Definition src_bad : string := ("x = (;" ++ LF)%string.

Definition project : Host := {|
  isdir := fun p => String.eqb p "proj";
  isfile := fun p => existsb (String.eqb p) ["proj/a.py"; "proj/bad.py"; "proj/b.py"];
  os_walk := fun p =>
    if String.eqb p "proj" then [("proj", [], ["a.py"; "bad.py"; "b.py"])] else [];
  path_join := fun root name => (root ++ "/" ++ name)%string;
  read_text := fun p =>
    if String.eqb p "proj/a.py" then Some src_a
    else if String.eqb p "proj/bad.py" then Some src_bad
    else if String.eqb p "proj/b.py" then Some src_b
    else None;
  parse := fun source =>
    if String.eqb source src_a then Some tree_a
    else if String.eqb source src_b then Some tree_b
    else None
|}.

(** The same project seen from elsewhere: other directories, the same
    two files. *)
Definition project_moved : Host := {|
  isdir := fun _ => false;
  isfile := fun p => String.eqb p "proj/a.py";
  os_walk := fun _ => [];
  path_join := fun root name => (root ++ name)%string;
  read_text := fun p => if String.eqb p "proj/a.py" then Some src_a else None;
  parse := parse project
|}.

(** A line rule stamps its violations with the path and the counter it
    was given, and with its own code. *)
Definition stamps (c : string)
    (check_line : string -> string -> nat -> option Violation) : Prop :=
  forall path line n v, check_line path line n = Some v ->
    src_path v = path /\ line_no v = n /\ code v = c.

(** The same for a tree rule: the line is the one of the node. *)
Definition stamps_node (c : string)
    (check_node : string -> AST -> option Violation) : Prop :=
  forall path node v, check_node path node = Some v ->
    src_path v = path /\ node_lineno node = Some (line_no v) /\ code v = c.

(** The violations S010 and S012 raise for a definition. *)
Definition S010 (path : string) (lineno : nat) : Violation :=
  mkViolation path lineno "S010" "Argument name should use snake_case".

Definition S012 (path : string) (lineno : nat) : Violation :=
  mkViolation path lineno "S012" "Default argument value is mutable".

(** [def f( *, myArg): pass] and [def f( *, x=[]): pass] on line 1. *)
Definition def_keyword_only : arguments :=
  mk_arguments [] [] None [mk_arg 1 "myArg" None] [None] None [].

Definition def_keyword_only_default : arguments :=
  mk_arguments [] [] None [mk_arg 1 "x" None] [Some (List_ 1 [] Load)] None [].

(** [def f(x=[]): pass] and [def f(x=None): pass] on line 1; the constant
    [None] is a node of another class. *)
Definition def_list_default : AST :=
  FunctionDef 1 "f" (mk_arguments [] [mk_arg 1 "x" None] None [] [] None [List_ 1 [] Load])
    [Other []] [] None.

Definition def_none_default : AST :=
  FunctionDef 1 "f" (mk_arguments [] [mk_arg 1 "x" None] None [] [] None [Other []])
    [Other []] [] None.

(** What the three tree rules find. *)
Definition detected_by_trees (path : string) (tree : AST) : list Violation :=
  List.concat (skipn 9 (found_by_rule path "" tree)).

(** A line number that points into the lines of a text. *)
Definition line_of (source : string) (n : nat) : Prop :=
  1 <= n <= List.length (Str.splitlines source).

(** A run of characters of the class [p] ends where the text [s] begins. *)
Definition stops (p : ascii -> bool) (s : string) : bool :=
  match s with
  | EmptyString => true
  | String c _ => negb (p c)
  end.

(** The violation S008 raises for the class name [name]. *)
Definition S008 (path : string) (line_no : nat) (name : string) : Violation :=
  mkViolation path line_no "S008" ("Class name '" ++ name ++ "' should use CamelCase")%string.

(** The violation S006 raises. *)
Definition S006 (path : string) (line_no : nat) : Violation :=
  mkViolation path line_no "S006" "More than two blank lines preceding a code line".

(** Four lines of three spaces each, then a line of code. *)
Definition src_blank : string :=
  ("   " ++ LF ++ "   " ++ LF ++ "   " ++ LF ++ "   " ++ LF ++ "x = 1" ++ LF)%string.

(** Four empty lines, then a line of code. *)
Definition src_empty : string := (LF ++ LF ++ LF ++ LF ++ "x = 1" ++ LF)%string.

(** ** What a pattern matches

    [matches r pos w rest]: the pattern [r], tried at offset [pos] of a
    text that goes on with [w] and then [rest], matches exactly [w]. *)

Inductive matches : regex -> nat -> string -> string -> Prop :=
| M_Eps pos rest : matches Eps pos "" rest
| M_Chr (p : ascii -> bool) c pos rest :
    p c = true -> matches (Chr p) pos (String c "") rest
| M_Cat r1 r2 pos w1 w2 rest :
    matches r1 pos w1 (w2 ++ rest)%string ->
    matches r2 (pos + String.length w1) w2 rest ->
    matches (Cat r1 r2) pos (w1 ++ w2)%string rest
| M_Alt_l r1 r2 pos w rest : matches r1 pos w rest -> matches (Alt r1 r2) pos w rest
| M_Alt_r r1 r2 pos w rest : matches r2 pos w rest -> matches (Alt r1 r2) pos w rest
| M_Star_end r pos rest : matches (Star r) pos "" rest
| M_Star_more r pos w1 w2 rest :
    w1 <> EmptyString ->
    matches r pos w1 (w2 ++ rest)%string ->
    matches (Star r) (pos + String.length w1) w2 rest ->
    matches (Star r) pos (w1 ++ w2)%string rest
| M_Group n r pos w rest : matches r pos w rest -> matches (Group n r) pos w rest
| M_Bol rest : matches Bol 0 "" rest
| M_Eol pos rest : at_end rest = true -> matches Eol pos "" rest
| M_Ahead r pos w rest :
    matches r pos w rest -> matches (Ahead r) pos "" (w ++ rest)%string.

(** A continuation whose success does not depend on the groups. *)
Definition indep (k : cont) : Prop :=
  forall pos s g g', found (k pos s g) = found (k pos s g').

(** The matcher of [r] finds exactly what [r] matches. *)
Definition finds (m : matcher) (r : regex) : Prop :=
  forall pos s g k, indep k ->
    (found (m pos s g k) = true
     <-> exists w rest, s = (w ++ rest)%string /\ matches r pos w rest
                        /\ found (k (pos + String.length w) rest g) = true).

(** Two texts that are equal up to the case of ASCII letters. *)
Fixpoint same_nocase (l w : string) : bool :=
  match l, w with
  | EmptyString, EmptyString => true
  | String x l', String c w' => Char.one_nocase x c && same_nocase l' w'
  | _, _ => false
  end.

(** The violations a check returned; none when it raised. *)
Definition violations_of (r : result (list Violation)) : list Violation :=
  match r with Ok vs => vs | Raised _ => [] end.

(** A list of violations reports the rule [c] at line [n]. *)
Definition reports (c : string) (vs : list Violation) (n : nat) : Prop :=
  exists v, In v vs /\ code v = c /\ line_no v = n.

(** [n] space characters. *)
Fixpoint spaces (n : nat) : string :=
  match n with
  | 0 => EmptyString
  | S n' => String " "%char (spaces n')
  end.

(** A text with a line of 80 characters between two short lines. *)
Definition long_line : string :=
  "x = '0123456789012345678901234567890123456789012345678901234567890123456789012'".

Definition src_long : string := ("a = 1" ++ LF ++ long_line ++ LF ++ "b = 2" ++ LF)%string.

(** Somewhere in [t], the word [kw] is followed by two white-space
    characters. *)
Definition two_spaces_after (kw t : string) : Prop :=
  exists pre c1 c2 post,
    t = (pre ++ kw ++ String c1 (String c2 post))%string
    /\ Char.isspace c1 = true /\ Char.isspace c2 = true.

(** The violation S009 raises for the function name [name]. *)
Definition S009 (path : string) (line_no : nat) (name : string) : Violation :=
  mkViolation path line_no "S009"
    ("Function name '" ++ name ++ "' should use snake_case")%string.

(** The violation S011 raises for an assignment. *)
Definition S011 (path : string) (lineno : nat) : Violation :=
  mkViolation path lineno "S011" "Variable should be written in snake_case".

(** A target that is a plain name and is not snake_case. *)
Definition bad_name (target : AST) : bool :=
  match target with
  | Name _ id _ => negb (snake_case id)
  | _ => false
  end.

(** The nodes on which S011 acts. *)
Definition bad_target (node : AST) : bool :=
  match node with
  | Assign _ targets _ => existsb bad_name targets
  | _ => false
  end.

(** [A, b = 1, 2] on line 1: the one target is a tuple, a node of another
    class. *)
Definition assign_tuple : AST :=
  Assign 1 [Other [Name 1 "A" Store; Name 1 "b" Store; Context Store]] (Other []).

(** The project without the file that does not parse, and the project
    with a file that cannot be read in its place. *)
Definition project_clean : Host := {|
  isdir := isdir project;
  isfile := isfile project;
  os_walk := fun p =>
    if String.eqb p "proj" then [("proj", [], ["a.py"; "b.py"])] else [];
  path_join := path_join project;
  read_text := read_text project;
  parse := parse project
|}.

Definition project_unreadable : Host := {|
  isdir := isdir project;
  isfile := isfile project;
  os_walk := fun p =>
    if String.eqb p "proj" then [("proj", [], ["a.py"; "gone.py"; "b.py"])] else [];
  path_join := path_join project;
  read_text := read_text project;
  parse := parse project
|}.

(** The order of a rule's own result: by line, one violation per line. *)
Definition line_after (a b : Violation) : Prop := line_no a < line_no b.

(** * Properties *)

(** ** Printing and sequencing *)

Lemma bind_ret_l {A B : Type} (a : A) (f : A -> proc B) : bind (ret a) f = f a.
Proof. unfold bind, ret; simpl. now destruct (f a). Qed.

Lemma bind_assoc {A B C : Type} (m : proc A) (f : A -> proc B) (g : B -> proc C) :
  bind (bind m f) g = bind m (fun a => bind (f a) g).
Proof.
  destruct m as [out [a | e]]; simpl; [| reflexivity].
  destruct (f a) as [out1 [b | e1]]; simpl; [| reflexivity].
  destruct (g b) as [out2 r]. now rewrite app_assoc.
Qed.

Lemma bind_raised {A B : Type} (m : proc A) (e : exn) (f : A -> proc B) :
  outcome m = Raised e -> bind m f = (stdout m, Raised e).
Proof. destruct m as [out r]; simpl; intros ->. reflexivity. Qed.

Lemma for_each_app {A : Type} (l1 l2 : list A) (body : A -> proc unit) :
  for_each (l1 ++ l2) body = for_each l1 body ;;; for_each l2 body.
Proof.
  induction l1 as [| x l1 IH]; cbn [app for_each].
  - now rewrite bind_ret_l.
  - rewrite IH. now rewrite bind_assoc.
Qed.

Lemma for_each_print {A : Type} (f : A -> string) (l : list A) :
  for_each l (fun x => print (f x)) = (map f l, Ok tt).
Proof.
  induction l as [| x l IH]; simpl; [reflexivity |]. now rewrite IH.
Qed.

(** ** The stable sort *)

Section Sorting.

Context {A : Type}.
Variable key : A -> nat.

(** [R] relates the elements that may keep their order at equal keys. *)
Variable R : A -> A -> Prop.

Lemma insert_by_perm (x : A) (l : list A) : Permutation (insert_by key x l) (x :: l).
Proof.
  induction l as [| y l IH]; simpl; [reflexivity |].
  destruct (key x <=? key y); [reflexivity |].
  rewrite IH. apply perm_swap.
Qed.

Lemma sorted_perm (l : list A) : Permutation (sorted key l) l.
Proof.
  induction l as [| x l IH]; simpl; [reflexivity |].
  rewrite insert_by_perm. now constructor.
Qed.

Lemma insert_by_key_then (x : A) (l : list A) :
  StronglySorted (key_then key R) l -> Forall (R x) l ->
  StronglySorted (key_then key R) (insert_by key x l).
Proof.
  induction l as [| y l IH]; intros Hs Hx; simpl.
  - constructor; constructor.
  - inversion Hs as [| ? ? Hs' Hy]; subst.
    inversion Hx as [| ? ? Rxy Hx']; subst.
    destruct (key x <=? key y) eqn:E.
    + apply Nat.leb_le in E. constructor; [assumption |].
      constructor.
      * unfold key_then. destruct (Nat.eq_dec (key x) (key y)); [right | left]; auto; lia.
      * rewrite Forall_forall in *. intros z Hz.
        specialize (Hy z Hz). specialize (Hx' z Hz). unfold key_then in *.
        destruct (Nat.eq_dec (key x) (key z)); [right | left]; auto; lia.
    + apply Nat.leb_gt in E. constructor; [now apply IH |].
      rewrite Forall_forall. intros z Hz.
      apply (Permutation_in _ (insert_by_perm x l)) in Hz.
      destruct Hz as [<- | Hz].
      * left. assumption.
      * rewrite Forall_forall in Hy. now apply Hy.
Qed.

(** Stability: what is ordered by [R] before sorting is ordered by key
    first and by [R] at equal keys afterwards. *)
Lemma sorted_stable (l : list A) :
  StronglySorted R l -> StronglySorted (key_then key R) (sorted key l).
Proof.
  induction l as [| x l IH]; intros Hs; simpl.
  - constructor.
  - inversion Hs as [| ? ? Hs' Hx]; subst.
    apply insert_by_key_then; [now apply IH |].
    rewrite Forall_forall in *. intros z Hz. apply Hx.
    now apply (Permutation_in _ (sorted_perm l)).
Qed.

End Sorting.


(** ** What the rules report *)

Ltac split_rule :=
  repeat match goal with
    | |- context [if ?b then _ else _] => destruct b
    | |- context [match ?x with Some _ => _ | None => _ end] => destruct x
    end.

Ltac stamp_line rule :=
  intros path line n v; unfold rule; split_rule;
  intros H; inversion H; subst; simpl; auto.

Lemma LengthCheck_stamps : stamps "S001" LengthCheck.check_line.
Proof. stamp_line LengthCheck.check_line. Qed.

Lemma IndentCheck_stamps : stamps "S002" IndentCheck.check_line.
Proof. stamp_line IndentCheck.check_line. Qed.

Lemma SemicolonCheck_stamps : stamps "S003" SemicolonCheck.check_line.
Proof. stamp_line SemicolonCheck.check_line. Qed.

Lemma SpacesBeforeCommentCheck_stamps : stamps "S004" SpacesBeforeCommentCheck.check_line.
Proof. stamp_line SpacesBeforeCommentCheck.check_line. Qed.

Lemma TodoCheck_stamps : stamps "S005" TodoCheck.check_line.
Proof. stamp_line TodoCheck.check_line. Qed.

Lemma ConstructionSpaceCheck_stamps : stamps "S007" ConstructionSpaceCheck.check_line.
Proof. stamp_line ConstructionSpaceCheck.check_line. Qed.

Lemma ClassNameCheck_stamps : stamps "S008" ClassNameCheck.check_line.
Proof. stamp_line ClassNameCheck.check_line. Qed.

Lemma FunctionNameCheck_stamps : stamps "S009" FunctionNameCheck.check_line.
Proof. stamp_line FunctionNameCheck.check_line. Qed.

Lemma ArgumentNameCheck_stamps : stamps_node "S010" ArgumentNameCheck.check_node.
Proof.
  intros path node v. destruct node as [l nm [po ar va kwo kwd kwa de] b d r | | | | | | | | |];
    simpl; try discriminate.
  induction ar as [| a ar IH]; simpl; [discriminate |].
  destruct (negb _); [| exact IH].
  intros H; inversion H; subst; simpl; auto.
Qed.

Lemma VariableNameCheck_stamps : stamps_node "S011" VariableNameCheck.check_node.
Proof.
  intros path node v. destruct node as [| l targets value | | | | | | | |];
    simpl; try discriminate.
  induction targets as [| t targets IH]; simpl; [discriminate |].
  destruct t; try exact IH.
  destruct (negb _); [| exact IH].
  intros H; inversion H; subst; simpl; auto.
Qed.

Lemma DefaultMutableCheck_stamps : stamps_node "S012" DefaultMutableCheck.check_node.
Proof.
  intros path node v. destruct node as [l nm [po ar va kwo kwd kwa de] b d r | | | | | | | | |];
    simpl; try discriminate.
  induction de as [| a de IH]; simpl; [discriminate |].
  destruct (DefaultMutableCheck.is_mutable_literal a); [| exact IH].
  intros H; inversion H; subst; simpl; auto.
Qed.

(** The counter of [LineCheck.check] stays within the lines scanned. *)
Lemma scan_stamped (c : string) check_line (path : string) :
  stamps c check_line ->
  forall lines n,
    Forall (fun v => src_path v = path /\ code v = c
                     /\ n <= line_no v < n + List.length lines)
           (LineCheck.scan check_line path lines n).
Proof.
  intros Hc lines. induction lines as [| line lines IH]; intros n; simpl.
  - constructor.
  - assert (Forall (fun v => src_path v = path /\ code v = c
                     /\ n <= line_no v < n + S (List.length lines))
              (LineCheck.scan check_line path lines (S n))) as Hrest.
    { eapply Forall_impl; [| apply IH]. simpl. intros v (? & ? & ?). repeat split; auto; lia. }
    destruct (check_line path line n) as [v |] eqn:E; [| exact Hrest].
    constructor; [| exact Hrest].
    destruct (Hc _ _ _ _ E) as (? & ? & ?). repeat split; auto; lia.
Qed.

Lemma blank_scan_stamped (path : string) (lines : list string) :
  forall rest idx,
    Forall (fun v => src_path v = path /\ code v = "S006"
                     /\ idx + 1 <= line_no v < idx + 1 + List.length rest)
           (TwoManyBlankLinesCheck.scan path lines rest idx).
Proof.
  intros rest. induction rest as [| line rest IH]; intros idx; simpl.
  - constructor.
  - assert (Forall (fun v => src_path v = path /\ code v = "S006"
                     /\ idx + 1 <= line_no v < idx + 1 + S (List.length rest))
              (TwoManyBlankLinesCheck.scan path lines rest (S idx))) as Hrest.
    { eapply Forall_impl; [| apply IH]. simpl. intros v (? & ? & ?). repeat split; auto; lia. }
    destruct (TwoManyBlankLinesCheck.fires lines line idx); [| exact Hrest].
    constructor; [| exact Hrest]. simpl. repeat split; auto; lia.
Qed.

Lemma visit_stamped (c : string) check_node (path : string) :
  stamps_node c check_node ->
  forall nodes,
    Forall (fun v => src_path v = path /\ code v = c
                     /\ exists node, In node nodes /\ check_node path node = Some v
                                     /\ node_lineno node = Some (line_no v))
           (AstCheck.visit check_node path nodes).
Proof.
  intros Hc nodes. induction nodes as [| node nodes IH]; simpl.
  - constructor.
  - assert (Forall (fun v => src_path v = path /\ code v = c
                     /\ exists node', In node' (node :: nodes)
                          /\ check_node path node' = Some v
                          /\ node_lineno node' = Some (line_no v))
              (AstCheck.visit check_node path nodes)) as Hrest.
    { eapply Forall_impl; [| apply IH]. simpl.
      intros v (? & ? & node' & ? & ? & ?). repeat split; auto. exists node'. auto. }
    destruct (check_node path node) as [v |] eqn:E; [| exact Hrest].
    constructor; [| exact Hrest].
    destruct (Hc _ _ _ E) as (? & ? & ?). repeat split; auto.
    exists node. simpl. auto.
Qed.

(** Rule by rule, the violations carry the path of the file and the code
    of the rule. *)
Lemma found_by_rule_codes (path source : string) (tree : AST) :
  Forall2 (fun c found_here =>
             Forall (fun v => src_path v = path /\ code v = c) found_here)
          codes (found_by_rule path source tree).
Proof.
  unfold codes, found_by_rule, by_lines, by_nodes.
  repeat (apply Forall2_cons || apply Forall2_nil);
    try (eapply Forall_impl; [| eapply scan_stamped;
           first [ apply LengthCheck_stamps | apply IndentCheck_stamps
                 | apply SemicolonCheck_stamps | apply SpacesBeforeCommentCheck_stamps
                 | apply TodoCheck_stamps | apply ConstructionSpaceCheck_stamps
                 | apply ClassNameCheck_stamps | apply FunctionNameCheck_stamps ] ];
         simpl; intros v (? & ? & ?); now auto);
    try (eapply Forall_impl; [| eapply visit_stamped;
           first [ apply ArgumentNameCheck_stamps | apply VariableNameCheck_stamps
                 | apply DefaultMutableCheck_stamps ] ];
         simpl; intros v (? & ? & ?); now auto).
  eapply Forall_impl; [| apply blank_scan_stamped].
  simpl; intros v (? & ? & ?); now auto.
Qed.

(** ** The order of a report *)

Lemma StronglySorted_app {A : Type} (R : A -> A -> Prop) (l1 l2 : list A) :
  StronglySorted R l1 -> StronglySorted R l2 ->
  (forall a b, In a l1 -> In b l2 -> R a b) ->
  StronglySorted R (l1 ++ l2).
Proof.
  induction l1 as [| x l1 IH]; intros H1 H2 H12; simpl; [assumption |].
  inversion H1 as [| ? ? H1' Hx]; subst.
  constructor.
  - apply IH; auto. intros a b Ha Hb. apply H12; simpl; auto.
  - apply Forall_app. split; [assumption |].
    rewrite Forall_forall. intros b Hb. apply H12; simpl; auto.
Qed.

Lemma constant_block_sorted (rank : Violation -> nat) (r : nat) (block : list Violation) :
  Forall (fun v => rank v = r) block ->
  StronglySorted (fun a b => rank a <= rank b) block.
Proof.
  induction 1 as [| v block Hv Hb IH]; constructor; [assumption |].
  eapply Forall_impl; [| exact Hb]. simpl. intros w Hw. lia.
Qed.

(** Blocks of violations with the ranks [ranks], put one after the other,
    are ordered by rank when the ranks are. *)
Lemma blocks_in_rank_order (rank : Violation -> nat) :
  forall (ranks : list nat) (blocks : list (list Violation)),
    Forall2 (fun r block => Forall (fun v => rank v = r) block) ranks blocks ->
    StronglySorted le ranks ->
    StronglySorted (fun a b => rank a <= rank b) (List.concat blocks)
    /\ Forall (fun v => In (rank v) ranks) (List.concat blocks).
Proof.
  intros ranks blocks H. induction H as [| r block ranks blocks Hb _ IH]; intros Hs; simpl.
  - split; constructor.
  - inversion Hs as [| ? ? Hs' Hr]; subst.
    destruct (IH Hs') as [IHs IHin]. split.
    + apply StronglySorted_app; [now apply constant_block_sorted with r | assumption |].
      intros a b Ha Hb'.
      rewrite Forall_forall in Hb, IHin, Hr.
      rewrite (Hb a Ha). apply Hr. now apply IHin.
    + apply Forall_app. split.
      * eapply Forall_impl; [| exact Hb]. simpl. intros v ->. now left.
      * eapply Forall_impl; [| exact IHin]. simpl. auto.
Qed.

Lemma detected_in_declared_order (path source : string) (tree : AST) :
  StronglySorted declared_order (detected path source tree).
Proof.
  unfold detected, declared_order.
  apply (blocks_in_rank_order (fun v => rule_no (code v)) (map rule_no codes)).
  - generalize (found_by_rule_codes path source tree).
    generalize (found_by_rule path source tree). generalize codes.
    induction 1 as [| c block cs blocks Hb _ IH]; simpl; constructor; [| assumption].
    eapply Forall_impl; [| exact Hb]. simpl. now intros v [_ ->].
  - vm_compute. repeat (constructor; [| repeat (constructor; try lia)]). constructor.
Qed.

Lemma detected_path (path source : string) (tree : AST) :
  Forall (fun v => src_path v = path) (detected path source tree).
Proof.
  unfold detected.
  generalize (found_by_rule_codes path source tree).
  generalize (found_by_rule path source tree). generalize codes.
  induction 1 as [| c block cs blocks Hb _ IH]; simpl; [constructor |].
  apply Forall_app. split; [| assumption].
  eapply Forall_impl; [| exact Hb]. simpl. now intros v [-> _].
Qed.

(** The loop over the checks gathers what the rules find, rule by rule. *)
Lemma run_checks_gathers (host : Host) (path source : string) :
  forall (cs : list Check) (blocks : list (list Violation)) (violations : list Violation),
    Forall2 (fun (c : Check) block => c host path source = Ok block) cs blocks ->
    Analyzer.run_checks host cs path source violations
    = Ok (violations ++ List.concat blocks).
Proof.
  intros cs blocks violations H. revert violations.
  induction H as [| c block cs blocks Hc _ IH]; intros violations; simpl.
  - now rewrite app_nil_r.
  - rewrite Hc, IH. now rewrite app_assoc.
Qed.

Lemma run_checks_detected (host : Host) (path source : string) (tree : AST) :
  parse host source = Some tree ->
  Analyzer.run_checks host Analyzer.checks path source [] = Ok (detected path source tree).
Proof.
  intros Hp. unfold detected.
  rewrite (run_checks_gathers host path source Analyzer.checks (found_by_rule path source tree)); [reflexivity |].
  unfold Analyzer.checks, found_by_rule.
  repeat (apply Forall2_cons || apply Forall2_nil); try reflexivity;
    unfold ArgumentNameCheck.check, VariableNameCheck.check, DefaultMutableCheck.check,
      AstCheck.check; now rewrite Hp.
Qed.

Lemma report_line_str (path : string) (v : Violation) :
  src_path v = path -> Violation_str v = report_line path v.
Proof. intros <-. reflexivity. Qed.

(** ** C1: the report of a file *)

(** C1.  For a file that is read and parsed, the Analyzer prints one line
    per detected violation, each of the form
    [<path>: Line <line_no>: <code> <message>]; the lines come in
    non-decreasing order of [line_no], and violations of one line come in
    the order in which the rules are declared, S001 to S012. *)
Theorem analyzer_report_order (host : Host) (path source : string) (tree : AST) :
  read_text host path = Some source ->
  parse host source = Some tree ->
  exists vs : list Violation,
    Analyzer.check host path = (map (report_line path) vs, Ok tt)
    /\ Permutation vs (detected path source tree)
    /\ List.length (stdout (Analyzer.check host path))
       = List.length (detected path source tree)
    /\ StronglySorted (key_then line_no declared_order) vs.
Proof.
  intros Hr Hp.
  exists (sorted line_no (detected path source tree)).
  assert (Analyzer.check host path
          = (map (report_line path) (sorted line_no (detected path source tree)), Ok tt)) as E.
  { unfold Analyzer.check. rewrite Hr, (run_checks_detected host path source tree Hp).
    rewrite for_each_print. f_equal.
    apply map_ext_in. intros v Hv. apply report_line_str.
    apply (Permutation_in _ (sorted_perm line_no _)) in Hv.
    generalize (detected_path path source tree). rewrite Forall_forall. auto. }
  repeat split.
  - exact E.
  - apply sorted_perm.
  - rewrite E. unfold stdout; simpl. rewrite length_map.
    apply Permutation_length, sorted_perm.
  - apply sorted_stable, detected_in_declared_order.
Qed.

Lemma analyzer_report_order_witness :
  exists vs : list Violation,
    Analyzer.check project "proj/a.py" = (map (report_line "proj/a.py") vs, Ok tt)
    /\ Permutation vs (detected "proj/a.py" src_a tree_a)
    /\ List.length (stdout (Analyzer.check project "proj/a.py"))
       = List.length (detected "proj/a.py" src_a tree_a)
    /\ StronglySorted (key_then line_no declared_order) vs.
Proof.
  exact (analyzer_report_order project "proj/a.py" src_a tree_a eq_refl eq_refl).
Defined.

(** ** The driver *)

Lemma for_each_map {A B : Type} (f : A -> B) (l : list A) (body : B -> proc unit) :
  for_each (map f l) body = for_each l (fun x => body (f x)).
Proof. induction l as [| x l IH]; simpl; [reflexivity |]. now rewrite IH. Qed.

(** A directory run is the loop over the discovered files. *)
Lemma main_directory (host : Host) (prog path_arg : string) :
  isdir host path_arg = true ->
  main host [prog; path_arg] = for_each (discovered host path_arg) (Analyzer.check host).
Proof.
  intros Hd. unfold main, discovered. cbn [nth_error]. rewrite Hd.
  induction (os_walk host path_arg) as [| [[root dirs] files] l IH]; cbn [for_each flat_map].
  - reflexivity.
  - rewrite for_each_app, for_each_map, IH. reflexivity.
Qed.

Lemma main_file (host : Host) (prog path_arg : string) :
  isdir host path_arg = false -> isfile host path_arg = true ->
  main host [prog; path_arg] = Analyzer.check host path_arg.
Proof. intros Hd Hf. unfold main. cbn [nth_error]. now rewrite Hd, Hf. Qed.

(** The loop over the checks ends with the first exception. *)
Lemma run_checks_raises (host : Host) (path source : string) (e : exn) :
  forall (cs : list Check) (blocks : list (list Violation)) (c : Check) (cs' : list Check)
         (violations : list Violation),
    Forall2 (fun (c : Check) block => c host path source = Ok block) cs blocks ->
    c host path source = Raised e ->
    Analyzer.run_checks host (cs ++ c :: cs') path source violations = Raised e.
Proof.
  intros cs blocks c cs' violations H Hc. revert violations.
  induction H as [| c0 block cs blocks Hc0 _ IH]; intros violations; simpl.
  - now rewrite Hc.
  - rewrite Hc0. apply IH.
Qed.

Lemma line_checks_ok (host : Host) (path source : string) :
  Forall2 (fun (c : Check) block => c host path source = Ok block)
          line_checks (firstn 9 (found_by_rule path source (Other []))).
Proof.
  unfold line_checks, Analyzer.checks, found_by_rule. cbn [firstn].
  repeat (apply Forall2_cons || apply Forall2_nil); reflexivity.
Qed.

Lemma tree_check_raises (host : Host) (path source : string) check_node :
  parse host source = None ->
  AstCheck.check check_node host path source = Raised SyntaxError.
Proof. intros Hp. unfold AstCheck.check. now rewrite Hp. Qed.

Lemma analyzer_parse_error (host : Host) (path source : string) :
  read_text host path = Some source ->
  parse host source = None ->
  Analyzer.check host path = ([], Raised SyntaxError).
Proof.
  intros Hr Hp. unfold Analyzer.check. rewrite Hr.
  change Analyzer.checks
    with (line_checks ++ ArgumentNameCheck.check
            :: [VariableNameCheck.check; DefaultMutableCheck.check]).
  rewrite (run_checks_raises host path source SyntaxError line_checks
             (firstn 9 (found_by_rule path source (Other [])))).
  - reflexivity.
  - apply line_checks_ok.
  - now apply tree_check_raises.
Qed.

(** ** C2: a parse error ends the run *)

(** C2.  When the parser rejects the text of a discovered file, no check
    and no caller handles the exception: the tree check raises it, the
    Analyzer of that file ends with it, and the run over the directory
    prints what the files before it printed, nothing for the files after
    it, and ends with an exception. *)
Theorem parse_error_aborts_run (host : Host) (prog path_arg bad source : string)
    (before after : list string) :
  isdir host path_arg = true ->
  discovered host path_arg = before ++ bad :: after ->
  read_text host bad = Some source ->
  parse host source = None ->
  (forall check_node, AstCheck.check check_node host bad source = Raised SyntaxError)
  /\ Analyzer.check host bad = ([], Raised SyntaxError)
  /\ main host [prog; path_arg]
     = (for_each before (Analyzer.check host) ;;; raise SyntaxError)
  /\ stdout (main host [prog; path_arg]) = stdout (for_each before (Analyzer.check host))
  /\ exists e, outcome (main host [prog; path_arg]) = Raised e.
Proof.
  intros Hd Hfiles Hr Hp.
  assert (main host [prog; path_arg]
          = (for_each before (Analyzer.check host) ;;; raise SyntaxError)) as E.
  { rewrite (main_directory host prog path_arg Hd), Hfiles, for_each_app.
    cbn [for_each]. now rewrite (analyzer_parse_error host bad source Hr Hp). }
  split; [| split; [| split; [| split]]].
  - intros check_node. now apply tree_check_raises.
  - now apply (analyzer_parse_error host bad source).
  - exact E.
  - rewrite E. destruct (for_each before (Analyzer.check host)) as [out [[] | e]];
      simpl; [apply app_nil_r | reflexivity].
  - rewrite E. destruct (for_each before (Analyzer.check host)) as [out [[] | e]];
      simpl; eauto.
Qed.

Lemma parse_error_aborts_run_witness :
  (forall check_node,
      AstCheck.check check_node project "proj/bad.py" src_bad = Raised SyntaxError)
  /\ Analyzer.check project "proj/bad.py" = ([], Raised SyntaxError)
  /\ main project ["prog"; "proj"]
     = (for_each ["proj/a.py"] (Analyzer.check project) ;;; raise SyntaxError)
  /\ stdout (main project ["prog"; "proj"])
     = stdout (for_each ["proj/a.py"] (Analyzer.check project))
  /\ exists e, outcome (main project ["prog"; "proj"]) = Raised e.
Proof.
  exact (parse_error_aborts_run project "prog" "proj" "proj/bad.py" src_bad
           ["proj/a.py"] ["proj/b.py"] eq_refl eq_refl eq_refl eq_refl).
Defined.

(** ** C10: nothing is printed for a file that does not parse *)

(** C10.  When the parser rejects the text of a file, the nine line rules
    have run and have found their violations, but the Analyzer prints
    only after all twelve checks: the file's output is empty and the
    Analyzer ends with the parser's exception. *)
Theorem parse_error_discards_line_violations (host : Host) (path source : string) :
  read_text host path = Some source ->
  parse host source = None ->
  Analyzer.run_checks host line_checks path source [] = Ok (detected_by_lines path source)
  /\ stdout (Analyzer.check host path) = []
  /\ outcome (Analyzer.check host path) = Raised SyntaxError.
Proof.
  intros Hr Hp. split.
  - unfold detected_by_lines.
    now rewrite (run_checks_gathers host path source line_checks
                   (firstn 9 (found_by_rule path source (Other [])))
                   [] (line_checks_ok host path source)).
  - now rewrite (analyzer_parse_error host path source Hr Hp).
Qed.

Lemma parse_error_discards_line_violations_witness :
  detected_by_lines "proj/bad.py" src_bad
  = [mkViolation "proj/bad.py" 1 "S003" "Unnecessary semicolon after a statement"]
  /\ Analyzer.run_checks project line_checks "proj/bad.py" src_bad []
     = Ok (detected_by_lines "proj/bad.py" src_bad)
  /\ stdout (Analyzer.check project "proj/bad.py") = []
  /\ outcome (Analyzer.check project "proj/bad.py") = Raised SyntaxError.
Proof.
  split; [vm_compute; reflexivity |].
  exact (parse_error_discards_line_violations project "proj/bad.py" src_bad
           eq_refl eq_refl).
Defined.

(** ** C7: the report is a function of path and content *)

(** C7.  The output for a file depends on nothing but its path, its
    content and the parser's answer on that content: two runs that read
    the same text under the same path, whatever else the file system holds
    and whatever ran before, print the same lines and end the same way. *)
Theorem analyzer_deterministic (h1 h2 : Host) (prog path source : string) :
  read_text h1 path = Some source ->
  read_text h2 path = Some source ->
  parse h1 source = parse h2 source ->
  isdir h1 path = false -> isfile h1 path = true ->
  isdir h2 path = false -> isfile h2 path = true ->
  Analyzer.check h1 path = Analyzer.check h2 path
  /\ main h1 [prog; path] = main h2 [prog; path].
Proof.
  intros Hr1 Hr2 Hp Hd1 Hf1 Hd2 Hf2.
  assert (Analyzer.check h1 path = Analyzer.check h2 path) as E.
  { destruct (parse h2 source) as [tree |] eqn:Hp2.
    - unfold Analyzer.check. rewrite Hr1, Hr2.
      now rewrite (run_checks_detected h1 path source tree Hp),
                  (run_checks_detected h2 path source tree Hp2).
    - now rewrite (analyzer_parse_error h1 path source Hr1 Hp),
                  (analyzer_parse_error h2 path source Hr2 Hp2). }
  split; [exact E |].
  now rewrite (main_file h1 prog path Hd1 Hf1), (main_file h2 prog path Hd2 Hf2).
Qed.

Lemma analyzer_deterministic_witness :
  Analyzer.check project "proj/a.py" = Analyzer.check project_moved "proj/a.py"
  /\ main project ["prog"; "proj/a.py"] = main project_moved ["prog"; "proj/a.py"].
Proof.
  exact (analyzer_deterministic project project_moved "prog" "proj/a.py" src_a
           eq_refl eq_refl eq_refl eq_refl eq_refl eq_refl eq_refl).
Defined.

(** ** C8: a path that is neither file nor directory *)

(** C8.  When the path argument names neither a directory nor a file, the
    program prints nothing and ends without an exception. *)
Theorem missing_path_silent (host : Host) (prog path_arg : string) :
  isdir host path_arg = false ->
  isfile host path_arg = false ->
  main host [prog; path_arg] = ([], Ok tt).
Proof. intros Hd Hf. unfold main. cbn [nth_error]. now rewrite Hd, Hf. Qed.

Lemma missing_path_silent_witness : main project ["prog"; "nothing"] = ([], Ok tt).
Proof.
  exact (missing_path_silent project "prog" "nothing" eq_refl eq_refl).
Defined.

(** ** [ast.walk] visits every node once *)

Lemma flat_map_map {A B C : Type} (f : B -> list C) (g : A -> B) (l : list A) :
  flat_map f (map g l) = flat_map (fun x => f (g x)) l.
Proof. induction l as [| x l IH]; simpl; [reflexivity |]. now rewrite IH. Qed.

Lemma flat_map_optional {A B : Type} (f : A -> list B) (o : option A) :
  flat_map f (optional o) = on_optional f o.
Proof. destruct o; simpl; [apply app_nil_r | reflexivity]. Qed.

Lemma flat_map_optionals {A B : Type} (f : A -> list B) (l : list (option A)) :
  flat_map f (flat_map optional l) = flat_map (on_optional f) l.
Proof.
  induction l as [| o l IH]; simpl; [reflexivity |].
  now rewrite flat_map_app, IH, flat_map_optional.
Qed.

(** The nodes of a tree are its root and the nodes of the trees below. *)
Lemma preorder_children (node : AST) :
  preorder node = node :: flat_map preorder (iter_child_nodes node).
Proof.
  destruct node as [l nm a b d r | l ts v | l i c | l es c | l ks vs | l es
                   | a | a | c | ch]; simpl; f_equal.
  - destruct a as [po ar va kwo kwd kwa de]. simpl. f_equal.
    repeat rewrite flat_map_app. repeat rewrite flat_map_map.
    repeat rewrite flat_map_optional. repeat rewrite flat_map_optionals.
    repeat rewrite <- app_assoc.
    reflexivity.
  - rewrite flat_map_app. simpl. now rewrite app_nil_r.
  - now rewrite flat_map_app.
  - now rewrite flat_map_app, flat_map_optionals.
  - destruct a as [po ar va kwo kwd kwa de]. simpl.
    repeat rewrite flat_map_app. repeat rewrite flat_map_map.
    repeat rewrite flat_map_optional. repeat rewrite flat_map_optionals.
    reflexivity.
  - destruct a as [l nm ann]. simpl. now rewrite flat_map_optional.
Qed.

(** With rounds enough for the nodes in and below the queue, the loop
    yields exactly these nodes. *)
Lemma walk_loop_visits (rounds : nat) :
  forall todo : list AST,
    List.length (flat_map preorder todo) <= rounds ->
    Permutation (walk_loop rounds todo) (flat_map preorder todo).
Proof.
  induction rounds as [| rounds IH]; intros todo Hn.
  - destruct todo as [| node todo]; simpl; [constructor |].
    simpl in Hn. rewrite preorder_children in Hn. simpl in Hn. lia.
  - destruct todo as [| node todo]; simpl; [constructor |].
    simpl in Hn. rewrite preorder_children in *. simpl in *. constructor.
    rewrite length_app in Hn.
    rewrite IH.
    + rewrite flat_map_app. apply Permutation_app_comm.
    + rewrite flat_map_app, length_app. lia.
Qed.

(** Further rounds find the queue empty. *)
Lemma walk_loop_ends (rounds extra : nat) :
  forall todo : list AST,
    List.length (flat_map preorder todo) <= rounds ->
    walk_loop (rounds + extra) todo = walk_loop rounds todo.
Proof.
  induction rounds as [| rounds IH]; intros todo Hn.
  - destruct todo as [| node todo]; simpl.
    + now destruct extra.
    + simpl in Hn. rewrite preorder_children in Hn. simpl in Hn. lia.
  - destruct todo as [| node todo]; simpl; [reflexivity |].
    simpl in Hn. rewrite preorder_children in Hn. simpl in Hn.
    rewrite length_app in Hn. f_equal. apply IH.
    rewrite flat_map_app, length_app. lia.
Qed.

Lemma walk_visits_once (tree : AST) : Permutation (walk tree) (preorder tree).
Proof.
  unfold walk. rewrite walk_loop_visits; simpl; rewrite app_nil_r; [reflexivity | lia].
Qed.

Lemma visit_filter check_node (keep : AST -> bool) (make : AST -> Violation)
    (path : string) (nodes : list AST) :
  (forall node, check_node path node = if keep node then Some (make node) else None) ->
  AstCheck.visit check_node path nodes = map make (filter keep nodes).
Proof.
  intros H. induction nodes as [| node nodes IH]; simpl; [reflexivity |].
  rewrite H, IH. now destruct (keep node).
Qed.

(** ** C5: argument names (S010) *)

Lemma for_args_first (path : string) (lineno : nat) (args : list arg) :
  ArgumentNameCheck.for_args path lineno args
  = if existsb (fun x => negb (snake_case (arg_name x))) args
    then Some (S010 path lineno) else None.
Proof.
  induction args as [| a args IH]; simpl; [reflexivity |].
  unfold snake_case at 1. destruct (negb _); [reflexivity | exact IH].
Qed.

Lemma ArgumentNameCheck_node (path : string) (node : AST) :
  ArgumentNameCheck.check_node path node
  = if bad_argument node then Some (S010 path (header_line node)) else None.
Proof.
  destruct node as [l nm [po ar va kwo kwd kwa de] b d r | | | | | | | | |];
    try reflexivity.
  simpl. apply for_args_first.
Qed.

(** C5 as stated does not hold for a keyword-only parameter:
    [def f( *, myArg): pass] has a parameter whose name is not snake_case
    and yields no S010. *)
Lemma S010_keyword_only_counterexample :
  ~ (ArgumentNameCheck.check_node "a.py"
       (FunctionDef 1 "f" def_keyword_only [Other []] [] None) <> None
     <-> exists x, In x (parameters def_keyword_only) /\ snake_case (arg_name x) = false).
Proof.
  intros [_ H]. apply H; [| reflexivity].
  exists (mk_arg 1 "myArg" None). split; [simpl; auto | vm_compute; reflexivity].
Qed.

(** C5, amended.  For every function definition ([ast.FunctionDef]) of a
    parsed file, S010 fires exactly when some name in [node.args.args],
    the ordinary positional-or-keyword parameters, fails the snake_case
    pattern; the check yields one violation per such definition, at the
    line of the definition, every node of the tree being visited once. *)
Theorem S010_argument_names (host : Host) (path source : string) (tree : AST) :
  parse host source = Some tree ->
  (forall lineno name a body decorator_list returns,
      let node := FunctionDef lineno name a body decorator_list returns in
      (ArgumentNameCheck.check_node path node = Some (S010 path lineno)
       <-> exists x, In x (args_args a) /\ snake_case (arg_name x) = false)
      /\ (ArgumentNameCheck.check_node path node = None
          <-> forall x, In x (args_args a) -> snake_case (arg_name x) = true))
  /\ ArgumentNameCheck.check host path source
     = Ok (map (fun node => S010 path (header_line node))
             (filter bad_argument (walk tree)))
  /\ Permutation (walk tree) (preorder tree).
Proof.
  intros Hp. split; [| split].
  - intros lineno name a body decorator_list returns node.
    rewrite ArgumentNameCheck_node. subst node. simpl.
    destruct (existsb _ (args_args a)) eqn:E.
    + apply existsb_exists in E. destruct E as (x & Hx & Hbad).
      apply negb_true_iff in Hbad. split; split; try discriminate; eauto.
      intros H. rewrite (H x Hx) in Hbad. discriminate.
    + split; split; try discriminate; try reflexivity.
      * intros (x & Hx & Hbad).
        assert (existsb (fun x => negb (snake_case (arg_name x))) (args_args a) = true).
        { apply existsb_exists. exists x. split; [assumption |]. now rewrite Hbad. }
        congruence.
      * intros _ x Hx. destruct (snake_case (arg_name x)) eqn:Hs; [reflexivity |].
        assert (existsb (fun x => negb (snake_case (arg_name x))) (args_args a) = true).
        { apply existsb_exists. exists x. split; [assumption |]. now rewrite Hs. }
        congruence.
  - unfold ArgumentNameCheck.check, AstCheck.check. rewrite Hp. f_equal.
    apply visit_filter. intros node. apply ArgumentNameCheck_node.
  - apply walk_visits_once.
Qed.

Lemma S010_argument_names_witness :
  (forall lineno name a body decorator_list returns,
      let node := FunctionDef lineno name a body decorator_list returns in
      (ArgumentNameCheck.check_node "proj/a.py" node = Some (S010 "proj/a.py" lineno)
       <-> exists x, In x (args_args a) /\ snake_case (arg_name x) = false)
      /\ (ArgumentNameCheck.check_node "proj/a.py" node = None
          <-> forall x, In x (args_args a) -> snake_case (arg_name x) = true))
  /\ ArgumentNameCheck.check project "proj/a.py" src_a
     = Ok (map (fun node => S010 "proj/a.py" (header_line node))
             (filter bad_argument (walk tree_a)))
  /\ Permutation (walk tree_a) (preorder tree_a).
Proof.
  exact (S010_argument_names project "proj/a.py" src_a tree_a eq_refl).
Defined.

(** ** C6: mutable defaults (S012) *)

Lemma for_defaults_first (path : string) (lineno : nat) (defaults : list AST) :
  DefaultMutableCheck.for_defaults path lineno defaults
  = if existsb DefaultMutableCheck.is_mutable_literal defaults
    then Some (S012 path lineno) else None.
Proof.
  induction defaults as [| a defaults IH]; simpl; [reflexivity |].
  destruct (DefaultMutableCheck.is_mutable_literal a); [reflexivity | exact IH].
Qed.

Lemma DefaultMutableCheck_node (path : string) (node : AST) :
  DefaultMutableCheck.check_node path node
  = if mutable_default node then Some (S012 path (header_line node)) else None.
Proof.
  destruct node as [l nm [po ar va kwo kwd kwa de] b d r | | | | | | | | |];
    try reflexivity.
  simpl. apply for_defaults_first.
Qed.

(** C6 as stated does not hold for the default of a keyword-only
    parameter: [def f( *, x=[]): pass] has a list literal as a default
    value and yields no S012. *)
Lemma S012_keyword_only_counterexample :
  ~ (DefaultMutableCheck.check_node "a.py"
       (FunctionDef 1 "f" def_keyword_only_default [Other []] [] None) <> None
     <-> exists d, In d (default_values def_keyword_only_default)
                   /\ DefaultMutableCheck.is_mutable_literal d = true).
Proof.
  intros [_ H]. apply H; [| reflexivity].
  exists (List_ 1 [] Load). split; [simpl; auto | reflexivity].
Qed.

(** C6, amended.  For every function definition ([ast.FunctionDef]) of a
    parsed file, S012 fires exactly when some value in
    [node.args.defaults], the defaults of the positional parameters, is a
    list, dict or set literal; the check yields one violation per such
    definition, at the line of the definition, every node of the tree
    being visited once.  [def f(x=[]): pass] yields S012 and
    [def f(x=None): pass] does not. *)
Theorem S012_mutable_defaults (host : Host) (path source : string) (tree : AST) :
  parse host source = Some tree ->
  (forall lineno name a body decorator_list returns,
      let node := FunctionDef lineno name a body decorator_list returns in
      (DefaultMutableCheck.check_node path node = Some (S012 path lineno)
       <-> exists d, In d (args_defaults a)
                     /\ DefaultMutableCheck.is_mutable_literal d = true)
      /\ (DefaultMutableCheck.check_node path node = None
          <-> forall d, In d (args_defaults a) ->
                        DefaultMutableCheck.is_mutable_literal d = false))
  /\ DefaultMutableCheck.check host path source
     = Ok (map (fun node => S012 path (header_line node))
             (filter mutable_default (walk tree)))
  /\ Permutation (walk tree) (preorder tree)
  /\ DefaultMutableCheck.check_node path def_list_default = Some (S012 path 1)
  /\ DefaultMutableCheck.check_node path def_none_default = None.
Proof.
  intros Hp. split; [| split; [| split; [| split]]]; try reflexivity.
  - intros lineno name a body decorator_list returns node.
    rewrite DefaultMutableCheck_node. subst node. simpl.
    destruct (existsb _ (args_defaults a)) eqn:E.
    + apply existsb_exists in E. destruct E as (d & Hd & Hm).
      split; split; try discriminate; eauto.
      intros H. rewrite (H d Hd) in Hm. discriminate.
    + split; split; try discriminate; try reflexivity.
      * intros (d & Hd & Hm).
        assert (existsb DefaultMutableCheck.is_mutable_literal (args_defaults a) = true).
        { apply existsb_exists. eauto. }
        congruence.
      * intros _ d Hd.
        destruct (DefaultMutableCheck.is_mutable_literal d) eqn:Hm; [| reflexivity].
        assert (existsb DefaultMutableCheck.is_mutable_literal (args_defaults a) = true).
        { apply existsb_exists. eauto. }
        congruence.
  - unfold DefaultMutableCheck.check, AstCheck.check. rewrite Hp. f_equal.
    apply visit_filter. intros node. apply DefaultMutableCheck_node.
  - apply walk_visits_once.
Qed.

Lemma S012_mutable_defaults_witness :
  DefaultMutableCheck.check project "proj/a.py" src_a = Ok [S012 "proj/a.py" 2]
  /\ DefaultMutableCheck.check_node "proj/a.py" def_list_default = Some (S012 "proj/a.py" 1)
  /\ DefaultMutableCheck.check_node "proj/a.py" def_none_default = None.
Proof.
  destruct (S012_mutable_defaults project "proj/a.py" src_a tree_a eq_refl)
    as (_ & Hcheck & _ & Hlist & Hnone).
  split; [| split]; [| exact Hlist | exact Hnone].
  rewrite Hcheck. reflexivity.
Defined.

(** ** C9: line numbers *)

Lemma detected_split (path source : string) (tree : AST) :
  detected path source tree = detected_by_lines path source ++ detected_by_trees path tree.
Proof.
  unfold detected, detected_by_lines, detected_by_trees, found_by_rule.
  cbn [firstn skipn]. rewrite <- concat_app. reflexivity.
Qed.

Lemma by_lines_valid (c : string) check_line (path source : string) :
  stamps c check_line ->
  Forall (fun v => line_of source (line_no v)) (by_lines check_line path source).
Proof.
  intros Hc. unfold by_lines, line_of.
  eapply Forall_impl; [| apply (scan_stamped c check_line path Hc)].
  simpl. intros v (_ & _ & H). lia.
Qed.

Lemma detected_by_lines_valid (path source : string) :
  Forall (fun v => line_of source (line_no v)) (detected_by_lines path source).
Proof.
  unfold detected_by_lines, found_by_rule. cbn [firstn List.concat].
  repeat rewrite Forall_app.
  repeat split; try apply Forall_nil;
    try (eapply by_lines_valid;
         first [ apply LengthCheck_stamps | apply IndentCheck_stamps
               | apply SemicolonCheck_stamps | apply SpacesBeforeCommentCheck_stamps
               | apply TodoCheck_stamps | apply ConstructionSpaceCheck_stamps
               | apply ClassNameCheck_stamps | apply FunctionNameCheck_stamps ]).
  eapply Forall_impl; [| apply blank_scan_stamped].
  unfold line_of. simpl. intros v (_ & _ & H). lia.
Qed.

Lemma by_nodes_start (c : string) check_node (path : string) (tree : AST) :
  stamps_node c check_node ->
  Forall (fun v => exists node, In node (preorder tree)
                                /\ node_lineno node = Some (line_no v))
         (by_nodes check_node path tree).
Proof.
  intros Hc. unfold by_nodes.
  eapply Forall_impl; [| apply (visit_stamped c check_node path Hc)].
  simpl. intros v (_ & _ & node & Hin & _ & Hl). exists node. split; [| exact Hl].
  now apply (Permutation_in _ (walk_visits_once tree)).
Qed.

Lemma detected_by_trees_start (path : string) (tree : AST) :
  Forall (fun v => exists node, In node (preorder tree)
                                /\ node_lineno node = Some (line_no v))
         (detected_by_trees path tree).
Proof.
  unfold detected_by_trees, found_by_rule. cbn [skipn List.concat].
  repeat rewrite Forall_app.
  repeat split; try apply Forall_nil;
    eapply by_nodes_start;
    first [ apply ArgumentNameCheck_stamps | apply VariableNameCheck_stamps
          | apply DefaultMutableCheck_stamps ].
Qed.

(** C9.  Every violation of the nine line rules carries the 1-based
    number of a line of the text; every violation of the three tree rules
    carries the line at which a node of the parsed tree starts, which is
    the number of a line of the text as far as the parser's line numbers
    are. *)
Theorem violation_lines_valid (host : Host) (path source : string) (tree : AST) :
  parse host source = Some tree ->
  (forall node n, In node (preorder tree) -> node_lineno node = Some n -> line_of source n) ->
  Analyzer.run_checks host Analyzer.checks path source [] = Ok (detected path source tree)
  /\ Forall (fun v => line_of source (line_no v)) (detected path source tree)
  /\ Forall (fun v => line_of source (line_no v)) (detected_by_lines path source)
  /\ Forall (fun v => exists node, In node (preorder tree)
                                   /\ node_lineno node = Some (line_no v))
            (detected_by_trees path tree).
Proof.
  intros Hp Hpos. split; [now apply run_checks_detected |].
  assert (Forall (fun v => line_of source (line_no v)) (detected_by_lines path source)) as Hl
    by apply detected_by_lines_valid.
  assert (Forall (fun v => exists node, In node (preorder tree)
                                   /\ node_lineno node = Some (line_no v))
            (detected_by_trees path tree)) as Ht
    by apply detected_by_trees_start.
  split; [| split; assumption].
  rewrite detected_split. apply Forall_app. split; [assumption |].
  eapply Forall_impl; [| exact Ht]. simpl. intros v (node & Hin & Hn). eauto.
Qed.

Lemma violation_lines_valid_witness :
  Analyzer.run_checks project Analyzer.checks "proj/a.py" src_a []
  = Ok (detected "proj/a.py" src_a tree_a)
  /\ Forall (fun v => line_of src_a (line_no v)) (detected "proj/a.py" src_a tree_a)
  /\ Forall (fun v => line_of src_a (line_no v)) (detected_by_lines "proj/a.py" src_a)
  /\ Forall (fun v => exists node, In node (preorder tree_a)
                                   /\ node_lineno node = Some (line_no v))
            (detected_by_trees "proj/a.py" tree_a).
Proof.
  apply (violation_lines_valid project "proj/a.py" src_a tree_a eq_refl).
  intros node n Hin Hn. unfold line_of.
  change (List.length (Str.splitlines src_a)) with 2.
  simpl in Hin.
  repeat (destruct Hin as [<- | Hin]; [simpl in Hn; inversion Hn; subst; lia || discriminate |]);
    try contradiction.
Defined.

(** ** Matching, step by step *)

Lemma substring_prefix (a b : string) :
  substring 0 (String.length a) (a ++ b)%string = a.
Proof.
  induction a as [| c a IH]; simpl.
  - now destruct b.
  - now rewrite IH.
Qed.

Lemma run_Cat (r1 r2 : regex) pos s g k :
  run (Cat r1 r2) pos s g k = run r1 pos s g (fun pos' s' g' => run r2 pos' s' g' k).
Proof. reflexivity. Qed.

Lemma run_Chr_hit (p : ascii -> bool) c pos s g k :
  p c = true -> run (Chr p) pos (String c s) g k = k (S pos) s g.
Proof. intros H. simpl. now rewrite H. Qed.

Lemma run_Lit (l : string) :
  forall pos s g k, run (Lit l) pos (l ++ s)%string g k = k (pos + String.length l) s g.
Proof.
  induction l as [| c l IH]; intros pos s g k.
  - simpl. now rewrite Nat.add_0_r.
  - destruct l as [| c' l'].
    + simpl. unfold Char.one. rewrite Ascii.eqb_refl. f_equal. lia.
    + change (Lit (String c (String c' l'))) with (Cat (Chr (Char.one c)) (Lit (String c' l'))).
      rewrite run_Cat.
      change (String c (String c' l') ++ s)%string with (String c (String c' l' ++ s)%string).
      rewrite run_Chr_hit by (unfold Char.one; apply Ascii.eqb_refl).
      rewrite IH. f_equal. simpl. lia.
Qed.

(** The first character decides against a literal that starts otherwise. *)
Lemma run_Lit_miss (x c : ascii) (l : string) (r : regex) pos s g k :
  Char.one x c = false ->
  run (Cat (Lit (String x l)) r) pos (String c s) g k = None.
Proof.
  intros H. rewrite run_Cat. destruct l as [| c' l'].
  - simpl. now rewrite H.
  - change (Lit (String x (String c' l'))) with (Cat (Chr (Char.one x)) (Lit (String c' l'))).
    rewrite run_Cat. simpl. now rewrite H.
Qed.

(** A greedy [p*] in front of a text that starts with a run [w] of [p]
    takes all of [w], when the rest of the pattern matches from there. *)
Lemma star_loop_step (body : matcher) rounds pos s g k :
  star_loop body (S rounds) pos s g k
  = match body pos s g
            (fun pos' s' g' =>
               if pos <? pos' then star_loop body rounds pos' s' g' k else None) with
    | Some m => Some m
    | None => k pos s g
    end.
Proof. reflexivity. Qed.

Lemma star_greedy (p : ascii -> bool) :
  forall w rounds pos rest g k m,
    all_chars p w = true -> stops p rest = true ->
    String.length w <= rounds ->
    k (pos + String.length w) rest g = Some m ->
    star_loop (run (Chr p)) rounds pos (w ++ rest)%string g k = Some m.
Proof.
  induction w as [| c w IH]; intros rounds pos rest g k m Hw Hrest Hn Hk.
  - simpl in Hk. rewrite Nat.add_0_r in Hk. cbn [append].
    destruct rounds as [| rounds]; [exact Hk |].
    rewrite star_loop_step.
    destruct rest as [| c rest]; [exact Hk |].
    simpl in Hrest. apply negb_true_iff in Hrest.
    cbn [run]. now rewrite Hrest.
  - simpl in Hw. apply andb_true_iff in Hw. destruct Hw as [Hc Hw].
    destruct rounds as [| rounds]; [simpl in Hn; lia |].
    change (String c w ++ rest)%string with (String c (w ++ rest)%string).
    rewrite star_loop_step, run_Chr_hit by assumption.
    assert ((pos <? S pos) = true) as -> by (apply Nat.ltb_lt; lia).
    rewrite (IH rounds (S pos) rest g k m); auto.
    + simpl in Hn. lia.
    + simpl in Hk.
      replace (S pos + String.length w) with (pos + S (String.length w)) by lia.
      exact Hk.
Qed.

Lemma length_append (a b : string) :
  String.length (a ++ b)%string = String.length a + String.length b.
Proof. induction a as [| c a IH]; simpl; [reflexivity |]. now rewrite IH. Qed.

Lemma plus_greedy (p : ascii -> bool) c w rest pos g k m :
  p c = true -> all_chars p w = true -> stops p rest = true ->
  k (S pos + String.length w) rest g = Some m ->
  run (Plus (Chr p)) pos (String c (w ++ rest)%string) g k = Some m.
Proof.
  intros Hc Hw Hrest Hk. unfold Plus. rewrite run_Cat, run_Chr_hit by assumption.
  cbn [run]. apply star_greedy; auto.
  rewrite length_append. lia.
Qed.

Lemma isspace_not_c (c : ascii) : Char.isspace c = true -> Char.one "c"%char c = false.
Proof.
  destruct c as [[] [] [] [] [] [] [] []]; vm_compute; congruence.
Qed.

Lemma word_not_space (c : ascii) : Char.word c = true -> Char.isspace c = false.
Proof.
  destruct c as [[] [] [] [] [] [] [] []]; vm_compute; congruence.
Qed.

(** The search passes over the indentation. *)
Lemma search_skips_indent (indent s : string) :
  forall pos,
    all_chars Char.isspace indent = true ->
    search_from CLASS_NAME pos (indent ++ s)%string
    = search_from CLASS_NAME (pos + String.length indent) s.
Proof.
  induction indent as [| c indent IH]; intros pos Hi.
  - simpl. now rewrite Nat.add_0_r.
  - simpl in Hi. apply andb_true_iff in Hi. destruct Hi as [Hc Hi].
    change (String c indent ++ s)%string with (String c (indent ++ s)%string).
    cbn [search_from]. unfold match_at at 1, CLASS_NAME at 1.
    change (Lit "class") with (Lit (String "c"%char "lass")).
    rewrite run_Lit_miss by (now apply isspace_not_c).
    rewrite IH by assumption. f_equal. simpl. lia.
Qed.

(** At the keyword, the pattern takes the white space and the whole
    name, and the name is group 1. *)
Lemma class_name_matches (c : ascii) (ws : string) (n : ascii) (name rest : string) pos :
  Char.isspace c = true -> all_chars Char.isspace ws = true ->
  Char.word n = true -> all_chars Char.word name = true ->
  exists whole,
    match_at CLASS_NAME pos
      ("class" ++ String c (ws ++ String n (name ++ String ":"%char rest)))%string
    = Some (set_group 0 whole (set_group 1 (String n name) [])).
Proof.
  intros Hc Hws Hn Hname. eexists.
  unfold match_at, CLASS_NAME.
  rewrite run_Cat, run_Lit. rewrite run_Cat.
  apply plus_greedy; try assumption.
  { simpl. now rewrite (word_not_space n Hn). }
  rewrite run_Cat. cbn [run].
  apply plus_greedy; try assumption.
  { reflexivity. }
  cbv beta. change (Char.one ":"%char ":"%char) with true. cbv iota.
  match goal with
  | |- context [substring 0 (?a - ?b) (String n _)] =>
      replace (a - b) with (String.length (String n name)) by (cbn [String.length]; lia)
  end.
  change (String n (name ++ String ":"%char rest)%string)
    with (String n name ++ String ":"%char rest)%string.
  rewrite substring_prefix. reflexivity.
Qed.

(** ** C4: class names (S008) *)

(** C4 as stated does not hold for a class with a list of bases:
    [class foo(Base):] is a class definition whose name is not CamelCase
    and yields no S008. *)
Lemma S008_base_list_counterexample :
  ~ (ClassNameCheck.check_line "a.py" (class_header "" " " "foo" "(Base)" "") 1
     = Some (S008 "a.py" 1 "foo")
     <-> camel_case "foo" = false).
Proof.
  intros [_ H]. specialize (H eq_refl). vm_compute in H. discriminate.
Qed.

(** C4, amended.  For every physical line with a class header whose name
    is directly followed by the colon (indentation, [class], white space,
    the name, the colon, anything after it), S008 fires, with the message
    [Class name '<name>' should use CamelCase], exactly when the name does
    not match the CamelCase pattern; a header with a list of bases or with
    space before the colon is not what the rule looks for.
    [class fooBar:] yields S008 naming [fooBar], [class FooBar:] yields
    none. *)
Theorem S008_class_names (path : string) (line_no : nat) (indent ws name rest : string) :
  all_chars Char.isspace indent = true ->
  ws <> EmptyString -> all_chars Char.isspace ws = true ->
  name <> EmptyString -> all_chars Char.word name = true ->
  ClassNameCheck.check_line path (class_header indent ws name "" rest) line_no
  = if camel_case name then None else Some (S008 path line_no name).
Proof.
  intros Hi Hws0 Hws Hname0 Hname.
  destruct ws as [| c ws]; [contradiction |].
  destruct name as [| n name]; [contradiction |].
  simpl in Hws, Hname.
  apply andb_true_iff in Hws. destruct Hws as [Hc Hws].
  apply andb_true_iff in Hname. destruct Hname as [Hn Hname].
  destruct (class_name_matches c ws n name rest (String.length indent) Hc Hws Hn Hname)
    as [whole Hm].
  unfold ClassNameCheck.check_line, class_header, search.
  rewrite search_skips_indent by assumption.
  change (0 + String.length indent) with (String.length indent).
  change ("class" ++ String c ws ++ String n name ++ "" ++ ":" ++ rest)%string
    with ("class" ++ String c (ws ++ String n (name ++ String ":"%char rest)))%string.
  remember ("class" ++ String c (ws ++ String n (name ++ String ":"%char rest)))%string
    as line eqn:Hline.
  destruct line as [| l0 line]; [discriminate |].
  cbn [search_from]. rewrite Hm.
  change (group1 (set_group 0 whole (set_group 1 (String n name) []))) with (String n name).
  unfold camel_case. now destruct (found (match_ CAMEL_CASE (String n name))).
Qed.

Lemma S008_class_names_witness :
  ClassNameCheck.check_line "a.py" "class fooBar:" 1 = Some (S008 "a.py" 1 "fooBar")
  /\ ClassNameCheck.check_line "a.py" "class FooBar:" 1 = None.
Proof.
  split.
  - exact (S008_class_names "a.py" 1 "" " " "fooBar" ""
             eq_refl ltac:(discriminate) eq_refl ltac:(discriminate) eq_refl).
  - exact (S008_class_names "a.py" 1 "" " " "FooBar" ""
             eq_refl ltac:(discriminate) eq_refl ltac:(discriminate) eq_refl).
Defined.

(** ** C3: blank lines (S006) *)

(** What the loop of S006 yields: one violation for every index at which
    the condition holds, numbered one above the index. *)
Lemma blank_scan_spec (path : string) (lines : list string) :
  forall rest idx v,
    In v (TwoManyBlankLinesCheck.scan path lines rest idx)
    <-> exists i line, nth_error rest i = Some line
                       /\ TwoManyBlankLinesCheck.fires lines line (idx + i) = true
                       /\ v = S006 path (idx + i + 1).
Proof.
  intros rest. induction rest as [| line rest IH]; intros idx v; cbn [TwoManyBlankLinesCheck.scan].
  - split; [contradiction |]. intros ([| i] & l & H & _); discriminate.
  - assert (In v (TwoManyBlankLinesCheck.scan path lines rest (S idx))
            <-> exists i l, nth_error (line :: rest) (S i) = Some l
                            /\ TwoManyBlankLinesCheck.fires lines l (idx + S i) = true
                            /\ v = S006 path (idx + S i + 1)) as Htail.
    { rewrite IH. split; intros (i & l & Hn & Hf & Hv); exists i, l; simpl in *;
        replace (idx + S i) with (S (idx + i)) in * by lia; auto. }
    destruct (TwoManyBlankLinesCheck.fires lines line idx) eqn:E.
    + split.
      * intros [<- | Hin].
        -- exists 0, line. rewrite Nat.add_0_r. auto.
        -- apply Htail in Hin. destruct Hin as (i & l & H). exists (S i), l. exact H.
      * intros ([| i] & l & Hn & Hf & Hv).
        -- left. rewrite Nat.add_0_r in Hv. now subst v.
        -- right. apply Htail. eauto.
    + rewrite Htail. split.
      * intros (i & l & H). exists (S i), l. exact H.
      * intros ([| i] & l & Hn & Hf & Hv); [| eauto].
        simpl in Hn. inversion Hn; subst l. rewrite Nat.add_0_r in Hf. congruence.
Qed.

(** C3, on the code.  Four lines of blanks before a line of code yield
    two violations, one of them on the fourth blank line: the current line
    is asked to be non-empty, not to be non-blank.  Four empty lines
    before a line of code yield the one violation on the line of code. *)
Theorem S006_fires_on_blank_line (host : Host) :
  Str.splitlines src_blank = ["   "; "   "; "   "; "   "; "x = 1"]
  /\ TwoManyBlankLinesCheck.check host "f.py" src_blank = Ok [S006 "f.py" 4; S006 "f.py" 5]
  /\ TwoManyBlankLinesCheck.check host "f.py" src_empty = Ok [S006 "f.py" 5].
Proof. split; [| split]; vm_compute; reflexivity. Qed.

(** * Further properties of the rules *)

(** ** The matcher and what a pattern matches *)

Lemma append_assoc (a b c : string) : ((a ++ b) ++ c = a ++ b ++ c)%string.
Proof. induction a as [| x a IH]; simpl; [reflexivity |]. now rewrite IH. Qed.

Lemma append_nil_r (a : string) : (a ++ "")%string = a.
Proof. induction a as [| x a IH]; simpl; [reflexivity |]. now rewrite IH. Qed.

Lemma bool_eq_iff (a b : bool) : (a = true <-> b = true) -> a = b.
Proof.
  destruct a, b; intros [H1 H2]; try reflexivity.
  - symmetry. now apply H1.
  - now apply H2.
Qed.

Lemma found_or (a b : option groups) :
  found (match a with Some m => Some m | None => b end) = found a || found b.
Proof. now destruct a. Qed.

Lemma finds_indep (m : matcher) (r : regex) (k : cont) :
  finds m r -> indep k -> indep (fun pos s g => m pos s g k).
Proof.
  intros Hm Hk pos s g g'. apply bool_eq_iff.
  rewrite (Hm pos s g k Hk), (Hm pos s g' k Hk).
  split; intros (w & rest & E & M & F); exists w, rest; repeat split; auto;
    rewrite <- F; apply Hk.
Qed.

(** The success of the loop of [r*] does not depend on the groups. *)
Lemma star_loop_indep (body : matcher) (r : regex) (k : cont) :
  finds body r -> indep k ->
  forall rounds, indep (fun pos s g => star_loop body rounds pos s g k).
Proof.
  intros Hb Hk rounds. induction rounds as [| rounds IH]; intros pos s g g'.
  - simpl. apply Hk.
  - rewrite !star_loop_step, !found_or. f_equal; [| apply Hk].
    apply (finds_indep _ _ _ Hb). intros pos' s' g1 g2.
    destruct (pos <? pos'); [apply IH | reflexivity].
Qed.

Lemma nonempty_length (w : string) : w <> EmptyString <-> 0 < String.length w.
Proof.
  destruct w; simpl; split; intros H; try lia; try discriminate.
  exfalso. now apply H.
Qed.

Lemma star_loop_finds (body : matcher) (r : regex) :
  finds body r ->
  forall rounds pos s g k, indep k -> String.length s < rounds ->
    (found (star_loop body rounds pos s g k) = true
     <-> exists w rest, s = (w ++ rest)%string /\ matches (Star r) pos w rest
                        /\ found (k (pos + String.length w) rest g) = true).
Proof.
  intros Hb rounds. induction rounds as [| rounds IH]; intros pos s g k Hk Hn; [lia |].
  rewrite star_loop_step, found_or, orb_true_iff.
  assert (indep (fun pos' s' g' =>
                   if pos <? pos' then star_loop body rounds pos' s' g' k else None)) as HK.
  { intros pos' s' g1 g2. destruct (pos <? pos'); [| reflexivity].
    apply (star_loop_indep _ _ _ Hb Hk). }
  rewrite (Hb pos s g _ HK). split.
  - intros [(w1 & rest1 & E & M1 & F) | F].
    + destruct (pos <? pos + String.length w1) eqn:G; [| discriminate].
      apply Nat.ltb_lt in G.
      apply IH in F; [| assumption | subst s; rewrite length_append in Hn; lia].
      destruct F as (w2 & rest & E2 & M2 & F).
      exists (w1 ++ w2)%string, rest. subst. rewrite append_assoc, length_append.
      repeat split.
      * apply M_Star_more; auto. apply nonempty_length. lia.
      * now rewrite Nat.add_assoc.
    + exists ""%string, s. simpl. rewrite Nat.add_0_r. repeat split; [constructor | assumption].
  - intros (w & rest & E & M & F). inversion M; subst.
    + right. simpl in F. now rewrite Nat.add_0_r in F.
    + left. exists w1, (w2 ++ rest)%string. rewrite append_assoc. repeat split; auto.
      assert (0 < String.length w1) as G by now apply nonempty_length.
      assert ((pos <? pos + String.length w1) = true) as -> by (apply Nat.ltb_lt; lia).
      apply IH; auto.
      * rewrite append_assoc, !length_append in Hn. rewrite length_append. lia.
      * exists w2, rest. rewrite length_append, Nat.add_assoc in F. auto.
Qed.

(** The matcher is sound and complete for what the pattern matches. *)
Theorem run_finds (r : regex) : finds (run r) r.
Proof.
  induction r as [| p | r1 IH1 r2 IH2 | r1 IH1 r2 IH2 | r IH | n r IH | | | r IH];
    intros pos s g k Hk.
  - simpl. split.
    + intros F. exists ""%string, s. simpl. rewrite Nat.add_0_r. repeat split; [constructor | auto].
    + intros (w & rest & E & M & F). inversion M; subst. simpl in F.
      now rewrite Nat.add_0_r in F.
  - simpl. split.
    + destruct s as [| c s]; [discriminate |]. destruct (p c) eqn:Hp; [| discriminate].
      intros F. exists (String c ""), s. simpl. repeat split; [now constructor |].
      now rewrite Nat.add_1_r.
    + intros (w & rest & E & M & F). inversion M as [| ? ? ? ? Hp | | | | | | | | |]; subst.
      simpl in *. rewrite Hp. now rewrite Nat.add_1_r in F.
  - rewrite run_Cat.
    rewrite (IH1 pos s g _ (finds_indep _ _ _ IH2 Hk)). split.
    + intros (w1 & rest1 & E & M1 & F). apply (IH2 _ _ _ _ Hk) in F.
      destruct F as (w2 & rest & E2 & M2 & F). subst.
      exists (w1 ++ w2)%string, rest. rewrite append_assoc, length_append, Nat.add_assoc.
      repeat split; auto. now constructor.
    + intros (w & rest & E & M & F). inversion M; subst.
      exists w1, (w2 ++ rest)%string. rewrite append_assoc. repeat split; auto.
      apply (IH2 _ _ _ _ Hk). exists w2, rest.
      rewrite length_append, Nat.add_assoc in F. auto.
  - cbn [run]. rewrite found_or, orb_true_iff.
    rewrite (IH1 pos s g k Hk), (IH2 pos s g k Hk). split.
    + intros [(w & rest & E & M & F) | (w & rest & E & M & F)]; exists w, rest;
        repeat split; auto; [now apply M_Alt_l | now apply M_Alt_r].
    + intros (w & rest & E & M & F). inversion M; subst; [left | right]; eauto.
  - cbn [run]. apply (star_loop_finds _ _ IH); [assumption | lia].
  - cbn [run].
    assert (indep (fun pos' s' g' =>
                     k pos' s' (set_group n (substring 0 (pos' - pos) s) g'))) as HK.
    { intros pos' s' g1 g2. apply Hk. }
    rewrite (IH pos s g _ HK). split.
    + intros (w & rest & E & M & F). exists w, rest. repeat split; auto; [now constructor |].
      rewrite <- F. apply Hk.
    + intros (w & rest & E & M & F). inversion M; subst. exists w, rest.
      repeat split; auto. rewrite <- F. apply Hk.
  - cbn [run]. split.
    + destruct (pos =? 0) eqn:E; [| discriminate]. apply Nat.eqb_eq in E. subst.
      intros F. exists ""%string, s. repeat split; [constructor | exact F].
    + intros (w & rest & E & M & F). inversion M; subst. exact F.
  - cbn [run]. split.
    + destruct (at_end s) eqn:E; [| discriminate].
      intros F. exists ""%string, s. simpl. rewrite Nat.add_0_r.
      repeat split; [now constructor | exact F].
    + intros (w & rest & E & M & F). inversion M as [| | | | | | | | | ? ? He |]; subst.
      simpl in *. rewrite He. now rewrite Nat.add_0_r in F.
  - cbn [run].
    assert (indep (fun (_ : nat) (_ : string) (g' : groups) => Some g')) as H0
      by (intros ? ? ? ?; reflexivity).
    pose proof (IH pos s g _ H0) as Hr.
    destruct (run r pos s g (fun _ _ g' => Some g')) as [g' |] eqn:Er.
    + split.
      * intros F. destruct Hr as [Hr _]. destruct (Hr eq_refl) as (w & rest & E & M & _).
        exists ""%string, s. simpl. rewrite Nat.add_0_r. subst s.
        repeat split; [now constructor |]. rewrite <- F. apply Hk.
      * intros (w & rest & E & M & F). inversion M; subst. simpl in F.
        rewrite Nat.add_0_r in F. rewrite <- F. apply Hk.
    + split; [discriminate |].
      intros (w & rest & E & M & F). inversion M; subst. simpl in *.
      destruct Hr as [_ Hr]. assert (found None = true) as X; [| discriminate X].
      apply Hr. exists w0, rest0. auto.
Qed.

Lemma match_at_found (r : regex) (pos : nat) (s : string) :
  found (match_at r pos s) = true
  <-> exists w rest, s = (w ++ rest)%string /\ matches r pos w rest.
Proof.
  unfold match_at.
  rewrite (run_finds r pos s [] _); [| intros ? ? ? ?; reflexivity].
  split.
  - intros (w & rest & E & M & _). eauto.
  - intros (w & rest & E & M). exists w, rest. auto.
Qed.

Lemma search_from_found (r : regex) :
  forall s pos,
    found (search_from r pos s) = true
    <-> exists pre w rest, s = (pre ++ w ++ rest)%string
                           /\ matches r (pos + String.length pre) w rest.
Proof.
  induction s as [| c s IH]; intros pos.
  - cbn [search_from]. rewrite found_or, orb_true_iff, match_at_found. split.
    + intros [(w & rest & E & M) | F]; [| discriminate].
      exists ""%string, w, rest. simpl. rewrite Nat.add_0_r. auto.
    + intros (pre & w & rest & E & M). left.
      destruct pre; [| discriminate]. simpl in *. rewrite Nat.add_0_r in M. eauto.
  - cbn [search_from]. rewrite found_or, orb_true_iff, match_at_found, IH. split.
    + intros [(w & rest & E & M) | (pre & w & rest & E & M)].
      * exists ""%string, w, rest. simpl. rewrite Nat.add_0_r. auto.
      * exists (String c pre), w, rest. simpl. subst s.
        replace (pos + S (String.length pre)) with (S pos + String.length pre) by lia. auto.
    + intros (pre & w & rest & E & M). destruct pre as [| c' pre].
      * left. simpl in *. rewrite Nat.add_0_r in M. eauto.
      * right. simpl in E. inversion E; subst. exists pre, w, rest. split; [reflexivity |].
        simpl in M.
        now replace (S pos + String.length pre) with (pos + S (String.length pre)) by lia.
Qed.

Lemma search_found (r : regex) (s : string) :
  found (search r s) = true
  <-> exists pre w rest, s = (pre ++ w ++ rest)%string
                         /\ matches r (String.length pre) w rest.
Proof. unfold search. now rewrite search_from_found. Qed.

(** What the pieces of the patterns match. *)

Lemma matches_Chr (p : ascii -> bool) pos w rest :
  matches (Chr p) pos w rest <-> exists c, w = String c "" /\ p c = true.
Proof.
  split.
  - intros M. inversion M; subst. eauto.
  - intros (c & -> & H). now constructor.
Qed.

Lemma matches_Cat r1 r2 pos w rest :
  matches (Cat r1 r2) pos w rest
  <-> exists w1 w2, w = (w1 ++ w2)%string /\ matches r1 pos w1 (w2 ++ rest)%string
                    /\ matches r2 (pos + String.length w1) w2 rest.
Proof.
  split.
  - intros M. inversion M; subst. eauto.
  - intros (w1 & w2 & -> & M1 & M2). now constructor.
Qed.

Lemma matches_star_chr (p : ascii -> bool) pos w rest :
  matches (Star (Chr p)) pos w rest <-> all_chars p w = true.
Proof.
  split.
  - intros M. remember (Star (Chr p)) as r eqn:Er. revert Er.
    induction M; intros Er; try discriminate; [reflexivity |].
    inversion Er; subst. apply matches_Chr in M1. destruct M1 as (c & -> & Hc).
    simpl. rewrite Hc. now apply IHM2.
  - revert pos. induction w as [| c w IH]; intros pos H; [constructor |].
    simpl in H. apply andb_true_iff in H. destruct H as [Hc Hw].
    change (String c w) with (String c "" ++ w)%string.
    apply M_Star_more; [discriminate | now constructor | now apply IH].
Qed.

Lemma matches_plus_chr (p : ascii -> bool) pos w rest :
  matches (Plus (Chr p)) pos w rest <-> w <> EmptyString /\ all_chars p w = true.
Proof.
  unfold Plus. rewrite matches_Cat. split.
  - intros (w1 & w2 & -> & M1 & M2). apply matches_Chr in M1. destruct M1 as (c & -> & Hc).
    apply matches_star_chr in M2. simpl. rewrite Hc, M2. split; [discriminate | reflexivity].
  - intros [Hne H]. destruct w as [| c w]; [contradiction |].
    simpl in H. apply andb_true_iff in H. destruct H as [Hc Hw].
    exists (String c ""), w. repeat split.
    + apply matches_Chr. eauto.
    + now apply matches_star_chr.
Qed.

Lemma matches_Lit (l : string) :
  forall pos w rest, matches (Lit l) pos w rest <-> w = l.
Proof.
  induction l as [| c l IH]; intros pos w rest.
  - simpl. split; [intros M; now inversion M | intros ->; constructor].
  - destruct l as [| c' l'].
    + simpl. rewrite matches_Chr. unfold Char.one. split.
      * intros (x & -> & H). apply Ascii.eqb_eq in H. now subst.
      * intros ->. exists c. split; [reflexivity | apply Ascii.eqb_refl].
    + change (Lit (String c (String c' l'))) with (Cat (Chr (Char.one c)) (Lit (String c' l'))).
      rewrite matches_Cat. split.
      * intros (w1 & w2 & -> & M1 & M2). apply matches_Chr in M1.
        destruct M1 as (x & -> & H). apply Ascii.eqb_eq in H. subst x.
        apply IH in M2. now subst.
      * intros ->. exists (String c ""), (String c' l'). repeat split.
        -- apply matches_Chr. exists c. split; [reflexivity | apply Ascii.eqb_refl].
        -- now apply IH.
Qed.

Lemma matches_LitI (l : string) :
  forall pos w rest, matches (LitI l) pos w rest <-> same_nocase l w = true.
Proof.
  induction l as [| c l IH]; intros pos w rest.
  - simpl. split; [intros M; now inversion M | destruct w; [constructor | discriminate]].
  - destruct l as [| c' l'].
    + simpl. rewrite matches_Chr. split.
      * intros (x & -> & H). now rewrite H.
      * destruct w as [| x w]; [discriminate |]. intros H.
        apply andb_true_iff in H. destruct H as [H1 H2].
        destruct w; [| discriminate]. eauto.
    + change (LitI (String c (String c' l')))
        with (Cat (Chr (Char.one_nocase c)) (LitI (String c' l'))).
      rewrite matches_Cat. split.
      * intros (w1 & w2 & -> & M1 & M2). apply matches_Chr in M1.
        destruct M1 as (x & -> & H). apply IH in M2.
        change (same_nocase (String c (String c' l')) (String x "" ++ w2)%string)
          with (Char.one_nocase c x && same_nocase (String c' l') w2).
        now rewrite H, M2.
      * destruct w as [| x w]; [discriminate |]. intros H.
        change (same_nocase (String c (String c' l')) (String x w))
          with (Char.one_nocase c x && same_nocase (String c' l') w) in H.
        apply andb_true_iff in H. destruct H as [H1 H2].
        exists (String x ""), w. repeat split.
        -- apply matches_Chr. eauto.
        -- now apply IH.
Qed.

(** ** The line discipline *)

Lemma scan_spec check_line (path : string) :
  forall lines n v,
    In v (LineCheck.scan check_line path lines n)
    <-> exists i line, nth_error lines i = Some line
                       /\ check_line path line (n + i) = Some v.
Proof.
  induction lines as [| line lines IH]; intros n v; cbn [LineCheck.scan].
  - split; [contradiction |]. intros ([| i] & l & H & _); discriminate.
  - assert (In v (LineCheck.scan check_line path lines (S n))
            <-> exists i l, nth_error (line :: lines) (S i) = Some l
                            /\ check_line path l (n + S i) = Some v) as Htail.
    { rewrite IH. split; intros (i & l & Hn & Hf); exists i, l; simpl in *;
        replace (n + S i) with (S (n + i)) in * by lia; auto. }
    destruct (check_line path line n) as [v0 |] eqn:E.
    + split.
      * intros [<- | Hin].
        -- exists 0, line. rewrite Nat.add_0_r. auto.
        -- apply Htail in Hin. destruct Hin as (i & l & H). exists (S i), l. exact H.
      * intros ([| i] & l & Hn & Hf).
        -- left. simpl in Hn. inversion Hn; subst l. rewrite Nat.add_0_r in Hf. congruence.
        -- right. apply Htail. eauto.
    + rewrite Htail. split.
      * intros (i & l & H). exists (S i), l. exact H.
      * intros ([| i] & l & Hn & Hf); [| eauto].
        simpl in Hn. inversion Hn; subst l. rewrite Nat.add_0_r in Hf. congruence.
Qed.

Lemma scan_length check_line (path : string) :
  forall lines n, List.length (LineCheck.scan check_line path lines n) <= List.length lines.
Proof.
  induction lines as [| line lines IH]; intros n; simpl; [lia |].
  specialize (IH (S n)). destruct (check_line path line n); simpl; lia.
Qed.

(** X1.  [LineCheck.check] never raises; it asks the rule about every
    line of [splitlines], numbered from 1, and returns what the rule
    answered and nothing else: no more violations than lines. *)
Theorem LineCheck_examines_every_line check_line (host : Host) (path source : string) :
  exists vs,
    LineCheck.check check_line host path source = Ok vs
    /\ (forall v, In v vs
                  <-> exists i line, nth_error (Str.splitlines source) i = Some line
                                     /\ check_line path line (i + 1) = Some v)
    /\ List.length vs <= List.length (Str.splitlines source).
Proof.
  eexists. split; [reflexivity |]. split.
  - intros v. rewrite scan_spec. split; intros (i & line & H1 & H2); exists i, line;
      (split; [exact H1 |]); [now rewrite Nat.add_comm | now rewrite Nat.add_comm in H2].
  - apply scan_length.
Qed.

(** A stamped rule reports line [i + 1] exactly when it fires on the
    line at index [i]. *)
Lemma line_rule_reports (c : string) check_line (host : Host) (path source : string)
    (i : nat) (line : string) :
  stamps c check_line ->
  nth_error (Str.splitlines source) i = Some line ->
  (reports c (violations_of (LineCheck.check check_line host path source)) (i + 1)
   <-> check_line path line (i + 1) <> None).
Proof.
  intros Hc Hi. unfold reports. cbn [LineCheck.check violations_of]. split.
  - intros (v & Hin & _ & Hl). apply scan_spec in Hin.
    destruct Hin as (i' & line' & Hi' & Hv).
    destruct (Hc _ _ _ _ Hv) as (_ & Hl' & _).
    assert (i' = i) by lia. subst i'. rewrite Hi in Hi'. inversion Hi'; subst line'.
    rewrite Nat.add_comm. congruence.
  - destruct (check_line path line (i + 1)) as [v |] eqn:E; [| congruence]. intros _.
    destruct (Hc _ _ _ _ E) as (_ & Hl & Hcode).
    exists v. repeat split; auto. apply scan_spec. exists i, line.
    split; [exact Hi |]. now rewrite Nat.add_comm.
Qed.

(** ** S001 and S002 *)

(** X2.  S001 is reported for a line exactly when the line has more than
    79 characters. *)
Theorem S001_long_lines (host : Host) (path source : string) (i : nat) (line : string) :
  nth_error (Str.splitlines source) i = Some line ->
  (reports "S001" (violations_of (LengthCheck.check host path source)) (i + 1)
   <-> 79 < String.length line).
Proof.
  intros Hi. unfold LengthCheck.check.
  rewrite (line_rule_reports "S001" _ host path source i line LengthCheck_stamps Hi).
  unfold LengthCheck.check_line, Str.len.
  destruct (79 <? String.length line) eqn:E.
  - apply Nat.ltb_lt in E. split; [auto | discriminate].
  - apply Nat.ltb_ge in E. split; [congruence | lia].
Qed.

Lemma S001_long_lines_witness :
  reports "S001" (violations_of (LengthCheck.check project "f.py" src_long)) 2
  <-> 79 < String.length long_line.
Proof. exact (S001_long_lines project "f.py" src_long 1 long_line eq_refl). Defined.

Lemma lstrip_spaces (n : nat) (rest : string) :
  stops (Char.one " "%char) rest = true ->
  Str.lstrip_char " " (spaces n ++ rest)%string = rest.
Proof.
  intros H. induction n as [| n IH]; simpl.
  - destruct rest as [| c rest]; [reflexivity |]. simpl in *.
    apply negb_true_iff in H. unfold Str.lstrip_char. simpl. now rewrite H.
  - exact IH.
Qed.

Lemma length_spaces (n : nat) : String.length (spaces n) = n.
Proof. induction n; simpl; auto. Qed.

(** X3.  S002 is reported for a line that begins with exactly [n] spaces
    exactly when [n] is not a multiple of four. *)
Theorem S002_indentation (host : Host) (path source : string) (i n : nat) (rest : string) :
  stops (Char.one " "%char) rest = true ->
  nth_error (Str.splitlines source) i = Some (spaces n ++ rest)%string ->
  (reports "S002" (violations_of (IndentCheck.check host path source)) (i + 1)
   <-> n mod 4 <> 0).
Proof.
  intros Hrest Hi. unfold IndentCheck.check.
  rewrite (line_rule_reports "S002" _ host path source i _ IndentCheck_stamps Hi).
  unfold IndentCheck.check_line, Str.len.
  rewrite (lstrip_spaces n rest Hrest), length_append, length_spaces.
  replace (n + String.length rest - String.length rest) with n by lia.
  destruct (n mod 4 =? 0) eqn:E; simpl.
  - apply Nat.eqb_eq in E. split; [congruence | intros H; contradiction].
  - apply Nat.eqb_neq in E. split; [auto | discriminate].
Qed.

Lemma S002_indentation_witness :
  reports "S002" (violations_of (IndentCheck.check project "f.py" "  x = 1")) 1
  <-> 2 mod 4 <> 0.
Proof.
  exact (S002_indentation project "f.py" "  x = 1" 0 2 "x = 1" eq_refl eq_refl).
Defined.

Lemma matches_Bol pos w rest : matches Bol pos w rest <-> pos = 0 /\ w = EmptyString.
Proof.
  split; [intros M; inversion M; auto | intros [-> ->]; constructor].
Qed.

Lemma matches_Eol pos w rest :
  matches Eol pos w rest <-> w = EmptyString /\ at_end rest = true.
Proof.
  split; [intros M; inversion M; auto | intros [-> H]; now constructor].
Qed.

Lemma matches_Eps pos w rest : matches Eps pos w rest <-> w = EmptyString.
Proof.
  split; [intros M; inversion M; auto | intros ->; constructor].
Qed.

Lemma matches_Alt r1 r2 pos w rest :
  matches (Alt r1 r2) pos w rest <-> matches r1 pos w rest \/ matches r2 pos w rest.
Proof.
  split.
  - intros M. inversion M; auto.
  - intros [M | M]; [now apply M_Alt_l | now apply M_Alt_r].
Qed.

Lemma matches_Group n r pos w rest :
  matches (Group n r) pos w rest <-> matches r pos w rest.
Proof.
  split; [intros M; now inversion M | intros M; now constructor].
Qed.

Lemma matches_Ahead r pos w rest :
  matches (Ahead r) pos w rest
  <-> w = EmptyString /\ exists w' rest', rest = (w' ++ rest')%string /\ matches r pos w' rest'.
Proof.
  split.
  - intros M. inversion M; subst. eauto.
  - intros (-> & w' & rest' & -> & M). now constructor.
Qed.

Lemma matches_one (x : ascii) pos w rest :
  matches (Chr (Char.one x)) pos w rest <-> w = String x "".
Proof.
  rewrite matches_Chr. unfold Char.one. split.
  - intros (c & -> & H). apply Ascii.eqb_eq in H. now subst.
  - intros ->. exists x. split; [reflexivity | apply Ascii.eqb_refl].
Qed.

Lemma length_zero (s : string) : String.length s = 0 -> s = EmptyString.
Proof. destruct s; [reflexivity | discriminate]. Qed.

Ltac norm := repeat (rewrite append_assoc || rewrite append_nil_r || cbn [append]).

(** ** S003: semicolons *)

Lemma semicolon_found (line : string) :
  found (search SEMICOLON line) = true
  <-> exists code ws tail,
        line = (code ++ ";" ++ ws ++ tail)%string
        /\ all_chars (none_of [Char.one "#"%char]) code = true
        /\ all_chars Char.isspace ws = true
        /\ (at_end tail = true \/ exists t, tail = String "#"%char t).
Proof.
  rewrite search_found. unfold SEMICOLON. split.
  - intros (pre & w & rest & E & M).
    apply matches_Cat in M. destruct M as (w1 & w2 & -> & M1 & M).
    apply matches_Bol in M1. destruct M1 as [Hpre ->]. apply length_zero in Hpre. subst pre.
    apply matches_Cat in M. destruct M as (code & w3 & -> & Mcode & M).
    apply matches_star_chr in Mcode.
    apply matches_Cat in M. destruct M as (semi & w4 & -> & Msemi & M).
    apply matches_one in Msemi. subst semi.
    apply matches_Cat in M. destruct M as (ws & w5 & -> & Mws & M).
    apply matches_star_chr in Mws.
    apply matches_Ahead in M. destruct M as (-> & w' & rest' & -> & M).
    exists code, ws, (w' ++ rest')%string. repeat split; auto.
    + subst line. now norm.
    + apply matches_Alt in M. destruct M as [M | M].
      * apply matches_one in M. subst w'. right. exists rest'. reflexivity.
      * apply matches_Eol in M. destruct M as [-> M]. left. exact M.
  - intros (code & ws & tail & -> & Hcode & Hws & Htail).
    exists ""%string, (code ++ ";" ++ ws)%string, tail. split; [now norm |].
    apply matches_Cat. exists ""%string, (code ++ ";" ++ ws)%string.
    repeat split; [now apply matches_Bol |].
    apply matches_Cat. exists code, (";" ++ ws)%string.
    repeat split; [now apply matches_star_chr |].
    apply matches_Cat. exists ";"%string, ws.
    repeat split; [now apply matches_one |].
    apply matches_Cat. exists ws, ""%string.
    repeat split; [now norm | now apply matches_star_chr |].
    apply matches_Ahead. split; [reflexivity |].
    destruct Htail as [Hend | (t & ->)].
    + exists ""%string, tail. split; [reflexivity |].
      apply matches_Alt. right. now apply matches_Eol.
    + exists "#"%string, t. split; [reflexivity |].
      apply matches_Alt. left. now apply matches_one.
Qed.

(** X4.  S003 is reported for a line exactly when, before any [#], the
    line has a semicolon that is followed by white space only up to a [#]
    or up to the end of the line. *)
Theorem S003_semicolon (host : Host) (path source : string) (i : nat) (line : string) :
  nth_error (Str.splitlines source) i = Some line ->
  (reports "S003" (violations_of (SemicolonCheck.check host path source)) (i + 1)
   <-> exists code ws tail,
         line = (code ++ ";" ++ ws ++ tail)%string
         /\ all_chars (none_of [Char.one "#"%char]) code = true
         /\ all_chars Char.isspace ws = true
         /\ (at_end tail = true \/ exists t, tail = String "#"%char t)).
Proof.
  intros Hi. unfold SemicolonCheck.check.
  rewrite (line_rule_reports "S003" _ host path source i line SemicolonCheck_stamps Hi).
  rewrite <- semicolon_found. unfold SemicolonCheck.check_line.
  destruct (found (search SEMICOLON line)); split; congruence.
Qed.

Lemma S003_semicolon_witness :
  reports "S003" (violations_of (SemicolonCheck.check project "f.py" "x = 1;  # why")) 1
  <-> exists code ws tail,
        "x = 1;  # why" = (code ++ ";" ++ ws ++ tail)%string
        /\ all_chars (none_of [Char.one "#"%char]) code = true
        /\ all_chars Char.isspace ws = true
        /\ (at_end tail = true \/ exists t, tail = String "#"%char t).
Proof.
  exact (S003_semicolon project "f.py" "x = 1;  # why" 0 "x = 1;  # why" eq_refl).
Defined.

(** ** S005: TODO *)

Lemma todo_found (line : string) :
  found (search TODO line) = true
  <-> exists a b t c,
        line = (a ++ "#" ++ b ++ t ++ c)%string
        /\ all_chars Char.dot b = true
        /\ same_nocase "TODO" t = true.
Proof.
  rewrite search_found. unfold TODO. split.
  - intros (pre & w & rest & E & M).
    apply matches_Cat in M. destruct M as (h & w2 & -> & Mh & M).
    apply matches_one in Mh. subst h.
    apply matches_Cat in M. destruct M as (b & t & -> & Mb & Mt).
    apply matches_star_chr in Mb. apply matches_LitI in Mt.
    exists pre, b, t, rest. repeat split; auto. subst line. now norm.
  - intros (a & b & t & c & -> & Hb & Ht).
    exists a, ("#" ++ b ++ t)%string, c. split; [now norm |].
    apply matches_Cat. exists "#"%string, (b ++ t)%string.
    repeat split; [now apply matches_one |].
    apply matches_Cat. exists b, t.
    repeat split; [now apply matches_star_chr | now apply matches_LitI].
Qed.

(** X5.  S005 is reported for a line exactly when the line has a [#]
    that is followed, on the same line, by the letters of TODO in any
    mix of cases. *)
Theorem S005_todo (host : Host) (path source : string) (i : nat) (line : string) :
  nth_error (Str.splitlines source) i = Some line ->
  (reports "S005" (violations_of (TodoCheck.check host path source)) (i + 1)
   <-> exists a b t c,
         line = (a ++ "#" ++ b ++ t ++ c)%string
         /\ all_chars Char.dot b = true
         /\ same_nocase "TODO" t = true).
Proof.
  intros Hi. unfold TodoCheck.check.
  rewrite (line_rule_reports "S005" _ host path source i line TodoCheck_stamps Hi).
  rewrite <- todo_found. unfold TodoCheck.check_line.
  destruct (found (search TODO line)); split; congruence.
Qed.

Lemma S005_todo_witness :
  reports "S005" (violations_of (TodoCheck.check project "f.py" "x = 1  # Todo: fix")) 1
  <-> exists a b t c,
        "x = 1  # Todo: fix" = (a ++ "#" ++ b ++ t ++ c)%string
        /\ all_chars Char.dot b = true
        /\ same_nocase "TODO" t = true.
Proof.
  exact (S005_todo project "f.py" "x = 1  # Todo: fix" 0 "x = 1  # Todo: fix" eq_refl).
Defined.

(** ** S007: spaces after the keyword *)

Lemma keyword_spaces_found (kw t : string) :
  found (search (Cat (Lit kw)
                   (Cat (Chr Char.isspace)
                      (Cat (Plus (Chr Char.isspace)) (Star (Chr Char.dot))))) t) = true
  <-> two_spaces_after kw t.
Proof.
  rewrite search_found. unfold two_spaces_after. split.
  - intros (pre & w & rest & E & M).
    apply matches_Cat in M. destruct M as (k & w2 & -> & Mk & M).
    apply matches_Lit in Mk. subst k.
    apply matches_Cat in M. destruct M as (s1 & w3 & -> & M1 & M).
    apply matches_Chr in M1. destruct M1 as (c1 & -> & H1).
    apply matches_Cat in M. destruct M as (s2 & d & -> & M2 & _).
    apply matches_plus_chr in M2. destruct M2 as [Hne H2].
    destruct s2 as [| c2 s2]; [contradiction |].
    simpl in H2. apply andb_true_iff in H2. destruct H2 as [H2 _].
    exists pre, c1, c2, (s2 ++ d ++ rest)%string. repeat split; auto.
    subst t. now norm.
  - intros (pre & c1 & c2 & post & -> & H1 & H2).
    exists pre, (kw ++ String c1 (String c2 ""))%string, post. split; [now norm |].
    apply matches_Cat. exists kw, (String c1 (String c2 "")).
    repeat split; [now apply matches_Lit |].
    apply matches_Cat. exists (String c1 ""), (String c2 "").
    repeat split; [apply matches_Chr; eauto |].
    apply matches_Cat. exists (String c2 ""), ""%string.
    repeat split.
    + apply matches_plus_chr. split; [discriminate |]. simpl. now rewrite H2.
    + now apply matches_star_chr.
Qed.

(** X6.  S007 is reported for a line exactly when the line, trimmed,
    begins with [class] and has [class] followed by two white-space
    characters somewhere, or the same with [def]. *)
Theorem S007_keyword_spaces (host : Host) (path source : string) (i : nat) (line : string) :
  nth_error (Str.splitlines source) i = Some line ->
  (reports "S007" (violations_of (ConstructionSpaceCheck.check host path source)) (i + 1)
   <-> (Str.startswith (Str.strip line) "class" = true
        /\ two_spaces_after "class" (Str.strip line))
       \/ (Str.startswith (Str.strip line) "def" = true
           /\ two_spaces_after "def" (Str.strip line))).
Proof.
  intros Hi. unfold ConstructionSpaceCheck.check.
  rewrite (line_rule_reports "S007" _ host path source i line
             ConstructionSpaceCheck_stamps Hi).
  rewrite <- !keyword_spaces_found. unfold ConstructionSpaceCheck.check_line.
  change CLASS_SPACES
    with (Cat (Lit "class") (Cat (Chr Char.isspace)
            (Cat (Plus (Chr Char.isspace)) (Star (Chr Char.dot))))).
  change DEF_SPACES
    with (Cat (Lit "def") (Cat (Chr Char.isspace)
            (Cat (Plus (Chr Char.isspace)) (Star (Chr Char.dot))))).
  destruct (Str.startswith (Str.strip line) "class");
    destruct (found (search _ (Str.strip line)));
    destruct (Str.startswith (Str.strip line) "def");
    destruct (found (search _ (Str.strip line)));
    simpl; split; intros H; try congruence; try tauto;
    try (destruct H as [[? ?] | [? ?]]; discriminate);
    try (intros ?; discriminate).
Qed.

Lemma S007_keyword_spaces_witness :
  reports "S007"
    (violations_of (ConstructionSpaceCheck.check project "f.py" "class  Person:")) 1
  <-> (Str.startswith (Str.strip "class  Person:") "class" = true
       /\ two_spaces_after "class" (Str.strip "class  Person:"))
      \/ (Str.startswith (Str.strip "class  Person:") "def" = true
          /\ two_spaces_after "def" (Str.strip "class  Person:")).
Proof.
  exact (S007_keyword_spaces project "f.py" "class  Person:" 0 "class  Person:" eq_refl).
Defined.

(** ** S004: spaces before a comment *)

Lemma contains_split (x : ascii) (s : string) :
  Str.contains x s = true ->
  exists rest, s = (Str.split_first x s ++ String x rest)%string
               /\ all_chars (none_of [Char.one x]) (Str.split_first x s) = true.
Proof.
  induction s as [| c s IH]; simpl; [discriminate |].
  destruct (Char.one x c) eqn:E; simpl.
  - intros _. exists s. unfold Char.one in E. apply Ascii.eqb_eq in E. now subst.
  - intros H. destruct (IH H) as (rest & Hs & Hn). exists rest. split.
    + now rewrite <- Hs.
    + unfold none_of at 1, any_of. simpl. now rewrite E.
Qed.

Lemma split_first_unique (x : ascii) (code rest : string) :
  all_chars (none_of [Char.one x]) code = true ->
  Str.split_first x (code ++ String x rest)%string = code
  /\ Str.contains x (code ++ String x rest)%string = true.
Proof.
  induction code as [| c code IH]; simpl.
  - intros _. unfold Char.one. now rewrite Ascii.eqb_refl.
  - intros H. apply andb_true_iff in H. destruct H as [Hc H].
    unfold none_of, any_of in Hc. simpl in Hc. rewrite orb_false_r in Hc.
    apply negb_true_iff in Hc. rewrite Hc. simpl.
    destruct (IH H) as [-> ->]. auto.
Qed.

Lemma lstrip_head (p : ascii -> bool) (s : string) (c : ascii) (r : string) :
  Str.lstrip_by p s = String c r -> p c = false.
Proof.
  induction s as [| x s IH]; simpl; [discriminate |].
  destruct (p x) eqn:E; [exact IH |]. intros H. inversion H; subst. exact E.
Qed.

Lemma rstrip_keep (p : ascii -> bool) (c : ascii) (s : string) :
  p c = false -> Str.rstrip_by p (String c s) = String c (Str.rstrip_by p s).
Proof. intros H. simpl. destruct (Str.rstrip_by p s); now rewrite ?H. Qed.

(** The trimmed line begins with [x] when its first character that is
    not white space is [x]. *)
Lemma strip_startswith (x : ascii) (s : string) :
  Str.startswith (Str.strip s) (String x "")
  = match Str.lstrip_by Char.isspace s with
    | String c _ => Char.one x c
    | EmptyString => false
    end.
Proof.
  unfold Str.strip, Str.startswith.
  destruct (Str.lstrip_by Char.isspace s) as [| c r] eqn:E; [reflexivity |].
  rewrite (rstrip_keep _ _ _ (lstrip_head _ _ _ _ E)). simpl.
  unfold Char.one. destruct (ascii_dec x c) as [-> | Hne].
  - rewrite Ascii.eqb_refl. now destruct (Str.rstrip_by Char.isspace r).
  - symmetry. apply Ascii.eqb_neq. congruence.
Qed.

Lemma comment_line (code rest : string) :
  all_chars (none_of [Char.one "#"%char]) code = true ->
  Str.startswith (Str.strip (code ++ String "#"%char rest)) "#"
  = all_chars Char.isspace code.
Proof.
  intros H. rewrite strip_startswith.
  induction code as [| c code IH]; [reflexivity |].
  simpl in H. apply andb_true_iff in H. destruct H as [Hc H].
  cbn [append Str.lstrip_by all_chars].
  destruct (Char.isspace c) eqn:E; simpl; [now apply IH |].
  unfold none_of, any_of in Hc. simpl in Hc. rewrite orb_false_r in Hc.
  now apply negb_true_iff in Hc.
Qed.

(** X7.  S004 is reported for a line exactly when the line has a [#],
    the text before the first [#] is not white space only, and that text
    does not end with two spaces; a line without [#] and a line that is a
    comment as a whole are never reported. *)
Theorem S004_inline_comment (host : Host) (path source : string) (i : nat) (line : string) :
  nth_error (Str.splitlines source) i = Some line ->
  (reports "S004" (violations_of (SpacesBeforeCommentCheck.check host path source)) (i + 1)
   <-> exists code rest,
         line = (code ++ "#" ++ rest)%string
         /\ all_chars (none_of [Char.one "#"%char]) code = true
         /\ all_chars Char.isspace code = false
         /\ Str.endswith code "  " = false).
Proof.
  intros Hi. unfold SpacesBeforeCommentCheck.check.
  rewrite (line_rule_reports "S004" _ host path source i line
             SpacesBeforeCommentCheck_stamps Hi).
  unfold SpacesBeforeCommentCheck.check_line. split.
  - destruct (Str.contains "#" line) eqn:Hc; [| simpl; congruence].
    destruct (contains_split _ _ Hc) as (rest & Hl & Hn).
    set (code := Str.split_first "#" line) in *.
    assert (Str.startswith (Str.strip line) "#" = all_chars Char.isspace code) as Hs
      by (rewrite Hl; now apply comment_line).
    rewrite Hs. intros H. exists code, rest. repeat split; auto.
    + destruct (all_chars Char.isspace code); [simpl in H; congruence | reflexivity].
    + destruct (all_chars Char.isspace code); [simpl in H; congruence |].
      simpl in H. destruct (Str.endswith code "  "); [simpl in H; congruence | reflexivity].
  - intros (code & rest & -> & Hn & Hsp & He).
    change (code ++ "#" ++ rest)%string with (code ++ String "#"%char rest)%string.
    destruct (split_first_unique "#" code rest Hn) as [-> ->].
    rewrite (comment_line code rest Hn), Hsp, He. simpl. discriminate.
Qed.

Lemma S004_inline_comment_witness :
  reports "S004"
    (violations_of (SpacesBeforeCommentCheck.check project "f.py" "x = 1 # why")) 1
  <-> exists code rest,
        "x = 1 # why" = (code ++ "#" ++ rest)%string
        /\ all_chars (none_of [Char.one "#"%char]) code = true
        /\ all_chars Char.isspace code = false
        /\ Str.endswith code "  " = false.
Proof.
  exact (S004_inline_comment project "f.py" "x = 1 # why" 0 "x = 1 # why" eq_refl).
Defined.

(** ** S006: where it can be reported *)

Lemma truthy_iff (s : string) : Str.truthy s = true <-> s <> EmptyString.
Proof.
  destruct s; simpl; split; intros H; try discriminate; auto.
Qed.

Lemma falsy_iff (s : string) : negb (Str.truthy s) = true <-> s = EmptyString.
Proof. destruct s; simpl; split; intros H; try discriminate; auto. Qed.

Lemma item_in_range (lines : list string) (i j : nat) (line : string) :
  nth_error lines i = Some line -> j <= i ->
  nth_error lines j = Some (TwoManyBlankLinesCheck.item lines j).
Proof.
  intros Hi Hj. unfold TwoManyBlankLinesCheck.item. apply nth_error_nth'.
  assert (i < List.length lines) by (apply nth_error_Some; congruence). lia.
Qed.

Lemma fires_iff (lines : list string) (line : string) (idx : nat) :
  TwoManyBlankLinesCheck.fires lines line idx = true
  <-> 2 < idx /\ line <> EmptyString
      /\ Str.strip (TwoManyBlankLinesCheck.item lines (idx - 1)) = EmptyString
      /\ Str.strip (TwoManyBlankLinesCheck.item lines (idx - 2)) = EmptyString
      /\ Str.strip (TwoManyBlankLinesCheck.item lines (idx - 3)) = EmptyString.
Proof.
  unfold TwoManyBlankLinesCheck.fires.
  rewrite !andb_true_iff, Nat.ltb_lt, truthy_iff, !falsy_iff. tauto.
Qed.

(** X8.  S006 is reported only from the fourth line on, only for a line
    that is not empty, and only when each of the three lines before it is
    empty or white space; and it is reported for every line with a
    character that is not white space that comes after three such lines. *)
Theorem S006_after_three_blank_lines (host : Host) (path source : string) (i : nat) :
  let lines := Str.splitlines source in
  let found_here := violations_of (TwoManyBlankLinesCheck.check host path source) in
  (reports "S006" found_here (i + 1) ->
   3 <= i
   /\ exists line a b c,
        nth_error lines i = Some line /\ line <> EmptyString
        /\ nth_error lines (i - 1) = Some a /\ Str.strip a = EmptyString
        /\ nth_error lines (i - 2) = Some b /\ Str.strip b = EmptyString
        /\ nth_error lines (i - 3) = Some c /\ Str.strip c = EmptyString)
  /\ (forall line a b c,
        3 <= i ->
        nth_error lines i = Some line -> Str.strip line <> EmptyString ->
        nth_error lines (i - 1) = Some a -> Str.strip a = EmptyString ->
        nth_error lines (i - 2) = Some b -> Str.strip b = EmptyString ->
        nth_error lines (i - 3) = Some c -> Str.strip c = EmptyString ->
        reports "S006" found_here (i + 1)).
Proof.
  intros lines found_here. subst found_here. cbn [TwoManyBlankLinesCheck.check violations_of].
  fold lines. split.
  - intros (v & Hin & _ & Hl). apply blank_scan_spec in Hin.
    destruct Hin as (i' & line & Hi & Hf & ->). simpl in Hl.
    assert (i' = i) by lia. subst i'. simpl in Hf.
    apply fires_iff in Hf. destruct Hf as (H3 & Hne & Ha & Hb & Hc).
    split; [lia |].
    exists line, (TwoManyBlankLinesCheck.item lines (i - 1)),
      (TwoManyBlankLinesCheck.item lines (i - 2)),
      (TwoManyBlankLinesCheck.item lines (i - 3)).
    repeat split; auto; apply (item_in_range lines i _ line Hi); lia.
  - intros line a b c H3 Hi Hne Ha Hsa Hb Hsb Hc Hsc.
    exists (S006 path (0 + i + 1)). split; [| split; [reflexivity | simpl; lia]].
    apply blank_scan_spec. exists i, line. split; [exact Hi |]. split; [| reflexivity].
    simpl. apply fires_iff.
    assert (forall j x, nth_error lines j = Some x -> TwoManyBlankLinesCheck.item lines j = x)
      as Hitem.
    { intros j x Hj. unfold TwoManyBlankLinesCheck.item. now apply nth_error_nth. }
    rewrite (Hitem _ _ Ha), (Hitem _ _ Hb), (Hitem _ _ Hc).
    repeat split; auto; try lia. intros ->. now apply Hne.
Qed.

Lemma S006_after_three_blank_lines_witness :
  reports "S006" (violations_of (TwoManyBlankLinesCheck.check project "f.py" src_empty)) 5.
Proof.
  apply (proj2 (S006_after_three_blank_lines project "f.py" src_empty 4) "x = 1" "" "" "");
    try reflexivity; try lia; discriminate.
Defined.

(** ** S009: function names *)

Lemma search_skips (x : ascii) (l : string) (r : regex) (indent s : string) :
  forall pos,
    all_chars (fun c => negb (Char.one x c)) indent = true ->
    search_from (Cat (Lit (String x l)) r) pos (indent ++ s)%string
    = search_from (Cat (Lit (String x l)) r) (pos + String.length indent) s.
Proof.
  induction indent as [| c indent IH]; intros pos Hi.
  - simpl. now rewrite Nat.add_0_r.
  - simpl in Hi. apply andb_true_iff in Hi. destruct Hi as [Hc Hi].
    apply negb_true_iff in Hc.
    change (String c indent ++ s)%string with (String c (indent ++ s)%string).
    cbn [search_from]. unfold match_at at 1.
    rewrite run_Lit_miss by assumption.
    rewrite IH by assumption. f_equal. simpl. lia.
Qed.

Lemma all_chars_impl (p q : ascii -> bool) (s : string) :
  (forall c, p c = true -> q c = true) -> all_chars p s = true -> all_chars q s = true.
Proof.
  intros H. induction s as [| c s IH]; simpl; [reflexivity |].
  intros Hs. apply andb_true_iff in Hs. destruct Hs as [Hc Hs].
  now rewrite (H c Hc), IH.
Qed.

Lemma isspace_not_d (c : ascii) : Char.isspace c = true -> negb (Char.one "d"%char c) = true.
Proof.
  destruct c as [[] [] [] [] [] [] [] []]; vm_compute; congruence.
Qed.

Lemma identifier_not_space (c : ascii) :
  any_of [Char.word; Char.one "_"%char] c = true -> Char.isspace c = false.
Proof.
  destruct c as [[] [] [] [] [] [] [] []]; vm_compute; congruence.
Qed.

Lemma def_name_matches (c : ascii) (ws : string) (n : ascii) (name rest : string) pos :
  Char.isspace c = true -> all_chars Char.isspace ws = true ->
  any_of [Char.word; Char.one "_"%char] n = true ->
  all_chars (any_of [Char.word; Char.one "_"%char]) name = true ->
  exists whole,
    match_at DEF_NAME pos
      ("def" ++ String c (ws ++ String n (name ++ String "("%char rest)))%string
    = Some (set_group 0 whole (set_group 1 (String n name) [])).
Proof.
  intros Hc Hws Hn Hname. eexists.
  unfold match_at, DEF_NAME.
  rewrite run_Cat, run_Lit. rewrite run_Cat.
  apply plus_greedy; try assumption.
  { simpl. now rewrite (identifier_not_space n Hn). }
  rewrite run_Cat. cbn [run].
  apply plus_greedy; try assumption.
  { reflexivity. }
  cbv beta. change (Char.one "("%char "("%char) with true. cbv iota.
  match goal with
  | |- context [substring 0 (?a - ?b) (String n _)] =>
      replace (a - b) with (String.length (String n name)) by (cbn [String.length]; lia)
  end.
  change (String n (name ++ String "("%char rest)%string)
    with (String n name ++ String "("%char rest)%string.
  rewrite substring_prefix. reflexivity.
Qed.

(** X9.  For a line with a function header (indentation, [def], white
    space, the name, the opening parenthesis, anything after it), S009
    fires, with the name in its message, exactly when the name does not
    match the snake_case pattern. *)
Theorem S009_function_names (path : string) (line_no : nat) (indent ws name rest : string) :
  all_chars Char.isspace indent = true ->
  ws <> EmptyString -> all_chars Char.isspace ws = true ->
  name <> EmptyString -> all_chars (any_of [Char.word; Char.one "_"%char]) name = true ->
  FunctionNameCheck.check_line path (indent ++ "def" ++ ws ++ name ++ "(" ++ rest)%string line_no
  = if snake_case name then None else Some (S009 path line_no name).
Proof.
  intros Hi Hws0 Hws Hname0 Hname.
  destruct ws as [| c ws]; [contradiction |].
  destruct name as [| n name]; [contradiction |].
  simpl in Hws, Hname.
  apply andb_true_iff in Hws. destruct Hws as [Hc Hws].
  apply andb_true_iff in Hname. destruct Hname as [Hn Hname].
  destruct (def_name_matches c ws n name rest (String.length indent) Hc Hws Hn Hname)
    as [whole Hm].
  unfold FunctionNameCheck.check_line, search, DEF_NAME.
  change (Lit "def") with (Lit (String "d"%char "ef")).
  rewrite search_skips by (apply (all_chars_impl Char.isspace); [apply isspace_not_d | assumption]).
  change (Cat (Lit (String "d"%char "ef"))
            (Cat (Plus (Chr Char.isspace))
               (Cat (Group 1 (Plus (Chr (any_of [Char.word; Char.one "_"%char]))))
                  (Chr (Char.one "("%char))))) with DEF_NAME.
  change (0 + String.length indent) with (String.length indent).
  change ("def" ++ String c ws ++ String n name ++ "(" ++ rest)%string
    with ("def" ++ String c (ws ++ String n (name ++ String "("%char rest)))%string.
  remember ("def" ++ String c (ws ++ String n (name ++ String "("%char rest)))%string
    as line eqn:Hline.
  destruct line as [| l0 line]; [discriminate |].
  cbn [search_from]. rewrite Hm.
  change (group1 (set_group 0 whole (set_group 1 (String n name) []))) with (String n name).
  unfold snake_case. now destruct (found (match_ SNAKE_CASE (String n name))).
Qed.

Lemma S009_function_names_witness :
  FunctionNameCheck.check_line "a.py" "    def Print2():" 7 = Some (S009 "a.py" 7 "Print2")
  /\ FunctionNameCheck.check_line "a.py" "def _print1():" 3 = None.
Proof.
  split.
  - exact (S009_function_names "a.py" 7 "    " " " "Print2" "):"
             eq_refl ltac:(discriminate) eq_refl ltac:(discriminate) eq_refl).
  - exact (S009_function_names "a.py" 3 "" " " "_print1" "):"
             eq_refl ltac:(discriminate) eq_refl ltac:(discriminate) eq_refl).
Defined.

(** ** The tree discipline *)

Lemma visit_spec check_node (path : string) :
  forall nodes v,
    In v (AstCheck.visit check_node path nodes)
    <-> exists node, In node nodes /\ check_node path node = Some v.
Proof.
  induction nodes as [| node nodes IH]; intros v; cbn [AstCheck.visit].
  - split; [contradiction | intros (n & [] & _)].
  - destruct (check_node path node) as [v0 |] eqn:E.
    + simpl. rewrite IH. split.
      * intros [<- | (n & Hn & Hv)]; eauto.
      * intros (n & [<- | Hn] & Hv); [left; congruence | right; eauto].
    + rewrite IH. split.
      * intros (n & Hn & Hv). exists n. simpl. auto.
      * intros (n & [<- | Hn] & Hv); [congruence | eauto].
Qed.

Lemma visit_length check_node (path : string) (nodes : list AST) :
  List.length (AstCheck.visit check_node path nodes) <= List.length nodes.
Proof.
  induction nodes as [| node nodes IH]; simpl; [lia |].
  destruct (check_node path node); simpl; lia.
Qed.

(** X10.  On a text the parser accepts, [AstCheck.check] asks the rule
    about every node of the tree and returns what the rule answered and
    nothing else: no more violations than nodes. *)
Theorem AstCheck_examines_every_node check_node (host : Host) (path source : string)
    (tree : AST) :
  parse host source = Some tree ->
  exists vs,
    AstCheck.check check_node host path source = Ok vs
    /\ (forall v, In v vs
                  <-> exists node, In node (preorder tree) /\ check_node path node = Some v)
    /\ List.length vs <= List.length (preorder tree).
Proof.
  intros Hp. unfold AstCheck.check. rewrite Hp. eexists. split; [reflexivity |]. split.
  - intros v. rewrite visit_spec. split; intros (node & Hn & Hv); exists node;
      (split; [| exact Hv]).
    + now apply (Permutation_in _ (walk_visits_once tree)).
    + now apply (Permutation_in _ (Permutation_sym (walk_visits_once tree))).
  - rewrite <- (Permutation_length (walk_visits_once tree)). apply visit_length.
Qed.

Lemma AstCheck_examines_every_node_witness :
  exists vs,
    AstCheck.check ArgumentNameCheck.check_node project "proj/a.py" src_a = Ok vs
    /\ (forall v, In v vs
                  <-> exists node, In node (preorder tree_a)
                                   /\ ArgumentNameCheck.check_node "proj/a.py" node = Some v)
    /\ List.length vs <= List.length (preorder tree_a).
Proof.
  exact (AstCheck_examines_every_node ArgumentNameCheck.check_node
           project "proj/a.py" src_a tree_a eq_refl).
Defined.

(** ** S011: variable names *)

Lemma for_targets_first (path : string) (lineno : nat) (targets : list AST) :
  VariableNameCheck.for_targets path lineno targets
  = if existsb bad_name targets then Some (S011 path lineno) else None.
Proof.
  induction targets as [| t targets IH]; simpl; [reflexivity |].
  destruct t; simpl; try exact IH.
  unfold snake_case at 1. destruct (negb _); [reflexivity | exact IH].
Qed.

Lemma VariableNameCheck_node (path : string) (node : AST) :
  VariableNameCheck.check_node path node
  = if bad_target node then Some (S011 path (header_line node)) else None.
Proof.
  destruct node; try reflexivity. simpl. apply for_targets_first.
Qed.

Lemma bad_name_iff (target : AST) :
  bad_name target = true
  <-> exists lineno id ctx, target = Name lineno id ctx /\ snake_case id = false.
Proof.
  destruct target; simpl; split; try discriminate;
    try (intros (? & ? & ? & E & _); discriminate).
  - intros H. apply negb_true_iff in H. eauto.
  - intros (? & ? & ? & E & H). inversion E; subst. now rewrite H.
Qed.

(** X11.  For every assignment statement ([ast.Assign]) of a parsed
    file, S011 fires exactly when some target that is a plain name fails
    the snake_case pattern; a target of another kind (a tuple, an
    attribute, a subscript) is passed over.  The check yields one
    violation per such assignment, at the line of the assignment. *)
Theorem S011_variable_names (host : Host) (path source : string) (tree : AST) :
  parse host source = Some tree ->
  (forall lineno targets value,
      VariableNameCheck.check_node path (Assign lineno targets value)
      = Some (S011 path lineno)
      <-> exists l id ctx, In (Name l id ctx) targets /\ snake_case id = false)
  /\ (forall lineno targets value,
      VariableNameCheck.check_node path (Assign lineno targets value) = None
      <-> forall l id ctx, In (Name l id ctx) targets -> snake_case id = true)
  /\ VariableNameCheck.check host path source
     = Ok (map (fun node => S011 path (header_line node))
             (filter bad_target (walk tree)))
  /\ VariableNameCheck.check_node path assign_tuple = None.
Proof.
  intros Hp.
  assert (forall targets,
             existsb bad_name targets = true
             <-> exists l id ctx, In (Name l id ctx) targets /\ snake_case id = false) as Hex.
  { intros targets. rewrite existsb_exists. split.
    - intros (t & Hin & Hb). apply bad_name_iff in Hb.
      destruct Hb as (l & id & ctx & -> & Hs). eauto.
    - intros (l & id & ctx & Hin & Hs). exists (Name l id ctx). split; [exact Hin |].
      apply bad_name_iff. eauto. }
  split; [| split; [| split]].
  - intros lineno targets value. rewrite VariableNameCheck_node.
    change (bad_target (Assign lineno targets value)) with (existsb bad_name targets).
    change (header_line (Assign lineno targets value)) with lineno.
    rewrite <- Hex. destruct (existsb bad_name targets); split; intros H;
      try reflexivity; discriminate.
  - intros lineno targets value. rewrite VariableNameCheck_node.
    change (bad_target (Assign lineno targets value)) with (existsb bad_name targets).
    destruct (existsb bad_name targets) eqn:E.
    + split; [discriminate |]. intros H. apply Hex in E.
      destruct E as (l & id & ctx & Hin & Hs). rewrite (H l id ctx Hin) in Hs. discriminate.
    + split; [| reflexivity]. intros _ l id ctx Hin.
      destruct (snake_case id) eqn:Hs; [reflexivity |].
      assert (existsb bad_name targets = true) by (apply Hex; eauto). congruence.
  - unfold VariableNameCheck.check, AstCheck.check. rewrite Hp. f_equal.
    apply visit_filter. intros node. apply VariableNameCheck_node.
  - reflexivity.
Qed.

Lemma S011_variable_names_witness :
  VariableNameCheck.check project "proj/b.py" src_b = Ok [S011 "proj/b.py" 1].
Proof.
  destruct (S011_variable_names project "proj/b.py" src_b tree_b eq_refl)
    as (_ & _ & Hcheck & _).
  rewrite Hcheck. reflexivity.
Defined.

(** ** The two naming patterns *)

Lemma at_end_iff (s : string) : at_end s = true <-> s = EmptyString \/ s = LF.
Proof.
  unfold LF. destruct s as [| c [| c' s]]; simpl; split; auto; try discriminate.
  - unfold Char.one. intros H. apply Ascii.eqb_eq in H. subst. auto.
  - intros [H | H]; [discriminate | now inversion H].
  - intros [H | H]; discriminate.
Qed.

(** X12.  A name passes [re.match(CAMEL_CASE, name)] exactly when it is
    an upper-case ASCII letter followed by ASCII letters only, with at
    most one newline after them. *)
Theorem camel_case_names (name : string) :
  camel_case name = true
  <-> exists c w tail,
        name = String c (w ++ tail)%string
        /\ Char.upper c = true
        /\ all_chars (any_of [Char.lower; Char.upper]) w = true
        /\ (tail = EmptyString \/ tail = LF).
Proof.
  unfold camel_case, match_. rewrite match_at_found. unfold CAMEL_CASE. split.
  - intros (w & rest & E & M).
    apply matches_Cat in M. destruct M as (w1 & w2 & -> & M1 & M).
    apply matches_Bol in M1. destruct M1 as [_ ->].
    apply matches_Cat in M. destruct M as (h & w3 & -> & Mh & M).
    apply matches_Chr in Mh. destruct Mh as (c & -> & Hc).
    apply matches_Cat in M. destruct M as (letters & w4 & -> & Ml & M).
    apply matches_star_chr in Ml.
    apply matches_Eol in M. destruct M as [-> Hend].
    exists c, letters, rest. repeat split; auto.
    + subst name. now norm.
    + now apply at_end_iff.
  - intros (c & w & tail & -> & Hc & Hw & Htail).
    exists (String c w), tail. split; [reflexivity |].
    apply matches_Cat. exists ""%string, (String c w).
    repeat split; [now apply matches_Bol |].
    apply matches_Cat. exists (String c ""), w.
    repeat split; [apply matches_Chr; eauto |].
    apply matches_Cat. exists w, ""%string.
    repeat split; [now norm | now apply matches_star_chr |].
    apply matches_Eol. split; [reflexivity | now apply at_end_iff].
Qed.

Lemma all_chars_append (p : ascii -> bool) (a b : string) :
  all_chars p (a ++ b)%string = all_chars p a && all_chars p b.
Proof.
  induction a as [| c a IH]; simpl; [reflexivity |]. now rewrite IH, andb_assoc.
Qed.

(** The repeated group of the second alternative of [SNAKE_CASE] adds
    nothing that the first alternative does not allow. *)
Lemma snake_tail_chars pos w rest :
  matches (Star (Group 2 (Cat (Chr (Char.one "_"%char))
                            (Plus (Chr (any_of [Char.lower; Char.digit]))))))
          pos w rest ->
  all_chars (any_of [Char.lower; Char.one "_"%char; Char.digit]) w = true.
Proof.
  intros M.
  remember (Star (Group 2 (Cat (Chr (Char.one "_"%char))
                             (Plus (Chr (any_of [Char.lower; Char.digit])))))) as r eqn:Er.
  revert Er. induction M; intros Er; try discriminate; [reflexivity |].
  inversion Er; subst. rewrite all_chars_append, (IHM2 eq_refl), andb_true_r.
  apply matches_Group in M1. apply matches_Cat in M1.
  destruct M1 as (u & x & -> & Mu & Mx).
  apply matches_one in Mu. subst u. apply matches_plus_chr in Mx. destruct Mx as [_ Hx].
  simpl. apply (all_chars_impl (any_of [Char.lower; Char.digit])); [| exact Hx].
  intros c. unfold any_of. simpl. rewrite !orb_false_r.
  intros Hld. apply orb_true_iff in Hld. destruct Hld as [-> | ->]; simpl;
    [reflexivity | now rewrite !orb_true_r].
Qed.

(** X13.  A name passes [re.match(SNAKE_CASE, name)] exactly when it is
    made of leading underscores if any, one or more lower-case ASCII
    letters, and then lower-case letters, digits and underscores only,
    with at most one newline after them. *)
Theorem snake_case_names (name : string) :
  snake_case name = true
  <-> exists us l t tail,
        name = (us ++ l ++ t ++ tail)%string
        /\ all_chars (Char.one "_"%char) us = true
        /\ l <> EmptyString /\ all_chars Char.lower l = true
        /\ all_chars (any_of [Char.lower; Char.one "_"%char; Char.digit]) t = true
        /\ (tail = EmptyString \/ tail = LF).
Proof.
  unfold snake_case, match_. rewrite match_at_found. unfold SNAKE_CASE. split.
  - intros (w & rest & E & M).
    apply matches_Cat in M. destruct M as (w1 & w2 & -> & M1 & M).
    apply matches_Bol in M1. destruct M1 as [_ ->].
    apply matches_Cat in M. destruct M as (body & w3 & -> & Mb & M).
    apply matches_Eol in M. destruct M as [-> Hend]. apply at_end_iff in Hend.
    apply matches_Group in Mb. apply matches_Alt in Mb. destruct Mb as [Mb | Mb].
    + apply matches_Cat in Mb. destruct Mb as (us & x & -> & Mus & Mb).
      apply matches_star_chr in Mus.
      apply matches_Cat in Mb. destruct Mb as (l & t & -> & Ml & Mt).
      apply matches_plus_chr in Ml. destruct Ml as [Hl0 Hl].
      apply matches_star_chr in Mt.
      exists us, l, t, rest. repeat split; auto. subst name. now norm.
    + apply matches_Cat in Mb. destruct Mb as (l & t & -> & Ml & Mt).
      apply matches_plus_chr in Ml. destruct Ml as [Hl0 Hl].
      apply snake_tail_chars in Mt.
      exists ""%string, l, t, rest. repeat split; auto. subst name. now norm.
  - intros (us & l & t & tail & -> & Hus & Hl0 & Hl & Ht & Htail).
    exists (us ++ l ++ t)%string, tail. split; [now norm |].
    apply matches_Cat. exists ""%string, (us ++ l ++ t)%string.
    repeat split; [now apply matches_Bol |].
    apply matches_Cat. exists (us ++ l ++ t)%string, ""%string.
    repeat split; [now norm | |].
    + apply matches_Group, matches_Alt. left.
      apply matches_Cat. exists us, (l ++ t)%string.
      repeat split; [now apply matches_star_chr |].
      apply matches_Cat. exists l, t.
      repeat split; [now apply matches_plus_chr | now apply matches_star_chr].
    + apply matches_Eol. split; [reflexivity | now apply at_end_iff].
Qed.

(** ** The Analyzer and the driver as a whole *)

(** An Analyzer that raises has printed nothing. *)
Lemma analyzer_raises_silently (host : Host) (path : string) (e : exn) :
  outcome (Analyzer.check host path) = Raised e -> stdout (Analyzer.check host path) = [].
Proof.
  unfold Analyzer.check. destruct (read_text host path) as [source |]; [| reflexivity].
  destruct (Analyzer.run_checks host Analyzer.checks path source []); [| reflexivity].
  rewrite for_each_print. discriminate.
Qed.

(** X14.  Whatever the file, the Analyzer either ends normally or has
    printed nothing and raises what [open] or [ast.parse] raised: it
    never prints a part of a report. *)
Theorem Analyzer_all_or_nothing (host : Host) (path : string) :
  outcome (Analyzer.check host path) = Ok tt
  \/ (stdout (Analyzer.check host path) = []
      /\ (outcome (Analyzer.check host path) = Raised OSError
          \/ outcome (Analyzer.check host path) = Raised SyntaxError)).
Proof.
  destruct (read_text host path) as [source |] eqn:Hr.
  - destruct (parse host source) as [tree |] eqn:Hp.
    + left. unfold Analyzer.check.
      rewrite Hr, (run_checks_detected host path source tree Hp), for_each_print.
      reflexivity.
    + right. rewrite (analyzer_parse_error host path source Hr Hp). auto.
  - right. unfold Analyzer.check. rewrite Hr. auto.
Qed.

Lemma for_each_all_ok {A : Type} (body : A -> proc unit) (l : list A) :
  Forall (fun x => outcome (body x) = Ok tt) l ->
  for_each l body = (flat_map (fun x => stdout (body x)) l, Ok tt).
Proof.
  induction 1 as [| x l Hx _ IH]; simpl; [reflexivity |].
  rewrite IH. destruct (body x) as [out r]. simpl in *. now subst r.
Qed.

(** X15.  When every discovered file is analysed without an exception,
    the output of a directory run is the outputs of the files one after
    the other, in the order of discovery, and the run ends normally. *)
Theorem directory_run_concatenates (host : Host) (prog dir : string) :
  isdir host dir = true ->
  Forall (fun f => outcome (Analyzer.check host f) = Ok tt) (discovered host dir) ->
  main host [prog; dir]
  = (flat_map (fun f => stdout (Analyzer.check host f)) (discovered host dir), Ok tt).
Proof.
  intros Hd Hok. rewrite (main_directory host prog dir Hd). now apply for_each_all_ok.
Qed.

Lemma directory_run_concatenates_witness :
  main project_clean ["prog"; "proj"]
  = (flat_map (fun f => stdout (Analyzer.check project_clean f))
       (discovered project_clean "proj"), Ok tt).
Proof.
  apply (directory_run_concatenates project_clean "prog" "proj" eq_refl).
  repeat constructor.
Defined.

(** X16.  A directory run ends with the first file whose Analyzer raises,
    be it for a text that does not parse or for a file that cannot be
    read: the output is that of the files before it, nothing is printed
    for it or for the files after it, and the run ends with its
    exception. *)
Theorem directory_run_stops_at_failure (host : Host) (prog dir f : string)
    (before after : list string) (e : exn) :
  isdir host dir = true ->
  discovered host dir = before ++ f :: after ->
  Forall (fun g => outcome (Analyzer.check host g) = Ok tt) before ->
  outcome (Analyzer.check host f) = Raised e ->
  main host [prog; dir]
  = (flat_map (fun g => stdout (Analyzer.check host g)) before, Raised e).
Proof.
  intros Hd Hfiles Hok He.
  rewrite (main_directory host prog dir Hd), Hfiles, for_each_app.
  rewrite (for_each_all_ok _ before Hok). cbn [for_each].
  pose proof (analyzer_raises_silently host f e He) as Hout.
  destruct (Analyzer.check host f) as [out r]. simpl in *. subst out r.
  simpl. now rewrite app_nil_r.
Qed.

Lemma directory_run_stops_at_failure_witness :
  main project_unreadable ["prog"; "proj"]
  = (flat_map (fun g => stdout (Analyzer.check project_unreadable g)) ["proj/a.py"],
     Raised OSError).
Proof.
  apply (directory_run_stops_at_failure project_unreadable "prog" "proj" "proj/gone.py"
           ["proj/a.py"] ["proj/b.py"] OSError eq_refl eq_refl).
  - repeat constructor.
  - reflexivity.
Defined.

(** ** S003: what it passes over *)

Lemma semicolon_before_comment (code tail : string) :
  all_chars (none_of [Char.one "#"%char]) code = true ->
  Str.contains ";" (Str.split_first "#" (code ++ String ";"%char tail)%string) = true.
Proof.
  induction code as [| c code IH]; intros H.
  - reflexivity.
  - simpl in H. apply andb_true_iff in H. destruct H as [Hc H].
    unfold none_of, any_of in Hc. simpl in Hc. rewrite orb_false_r in Hc.
    apply negb_true_iff in Hc. cbn [append Str.split_first]. rewrite Hc.
    cbn [Str.contains]. rewrite (IH H). apply orb_true_r.
Qed.

(** X17.  A line that has no semicolon before its first [#] (or no
    semicolon at all) is never reported by S003: semicolons inside a
    comment are passed over. *)
Theorem S003_ignores_comments (host : Host) (path source : string) (i : nat) (line : string) :
  nth_error (Str.splitlines source) i = Some line ->
  Str.contains ";" (Str.split_first "#" line) = false ->
  ~ reports "S003" (violations_of (SemicolonCheck.check host path source)) (i + 1).
Proof.
  intros Hi Hno Hrep.
  unfold SemicolonCheck.check in Hrep.
  apply (line_rule_reports "S003" _ host path source i line SemicolonCheck_stamps Hi) in Hrep.
  assert (found (search SEMICOLON line) = true) as Hfound.
  { unfold SemicolonCheck.check_line in Hrep.
    destruct (found (search SEMICOLON line)); congruence. }
  apply semicolon_found in Hfound.
  destruct Hfound as (code & ws & tail & -> & Hcode & _).
  change (code ++ ";" ++ ws ++ tail)%string
    with (code ++ String ";"%char (ws ++ tail))%string in Hno.
  rewrite (semicolon_before_comment code _ Hcode) in Hno. discriminate.
Qed.

Lemma S003_ignores_comments_witness :
  ~ reports "S003"
      (violations_of (SemicolonCheck.check project "f.py" "x = 1  # a; b;")) 1.
Proof.
  exact (S003_ignores_comments project "f.py" "x = 1  # a; b;" 0 "x = 1  # a; b;"
           eq_refl eq_refl).
Defined.

(** ** S008 and S009: what they look for *)

(** X18.  S008 is reported only for a line in which [class], white
    space, a run of word characters and a colon follow one another. *)
Theorem S008_needs_class_header (host : Host) (path source : string) (i : nat)
    (line : string) :
  nth_error (Str.splitlines source) i = Some line ->
  reports "S008" (violations_of (ClassNameCheck.check host path source)) (i + 1) ->
  exists pre ws name rest,
    line = (pre ++ "class" ++ ws ++ name ++ ":" ++ rest)%string
    /\ ws <> EmptyString /\ all_chars Char.isspace ws = true
    /\ name <> EmptyString /\ all_chars Char.word name = true.
Proof.
  intros Hi Hrep. unfold ClassNameCheck.check in Hrep.
  apply (line_rule_reports "S008" _ host path source i line ClassNameCheck_stamps Hi) in Hrep.
  assert (found (search CLASS_NAME line) = true) as Hfound.
  { unfold ClassNameCheck.check_line in Hrep.
    destruct (search CLASS_NAME line); [reflexivity | congruence]. }
  apply search_found in Hfound. destruct Hfound as (pre & w & rest & E & M).
  unfold CLASS_NAME in M.
  apply matches_Cat in M. destruct M as (k & w2 & -> & Mk & M).
  apply matches_Lit in Mk. subst k.
  apply matches_Cat in M. destruct M as (ws & w3 & -> & Mws & M).
  apply matches_plus_chr in Mws. destruct Mws as [Hws0 Hws].
  apply matches_Cat in M. destruct M as (name & colon & -> & Mname & Mcolon).
  apply matches_Group in Mname. apply matches_plus_chr in Mname.
  destruct Mname as [Hname0 Hname].
  apply matches_one in Mcolon. subst colon.
  exists pre, ws, name, rest. repeat split; auto. subst line. now norm.
Qed.

Lemma S008_needs_class_header_witness :
  exists pre ws name rest,
    "class fooBar:" = (pre ++ "class" ++ ws ++ name ++ ":" ++ rest)%string
    /\ ws <> EmptyString /\ all_chars Char.isspace ws = true
    /\ name <> EmptyString /\ all_chars Char.word name = true.
Proof.
  apply (S008_needs_class_header project "f.py" "class fooBar:" 0 "class fooBar:" eq_refl).
  exists (S008 "f.py" 1 "fooBar"). repeat split. left. reflexivity.
Defined.

(** X19.  S009 is reported only for a line in which [def], white space,
    a run of word characters and an opening parenthesis follow one
    another. *)
Theorem S009_needs_def_header (host : Host) (path source : string) (i : nat)
    (line : string) :
  nth_error (Str.splitlines source) i = Some line ->
  reports "S009" (violations_of (FunctionNameCheck.check host path source)) (i + 1) ->
  exists pre ws name rest,
    line = (pre ++ "def" ++ ws ++ name ++ "(" ++ rest)%string
    /\ ws <> EmptyString /\ all_chars Char.isspace ws = true
    /\ name <> EmptyString
    /\ all_chars (any_of [Char.word; Char.one "_"%char]) name = true.
Proof.
  intros Hi Hrep. unfold FunctionNameCheck.check in Hrep.
  apply (line_rule_reports "S009" _ host path source i line FunctionNameCheck_stamps Hi)
    in Hrep.
  assert (found (search DEF_NAME line) = true) as Hfound.
  { unfold FunctionNameCheck.check_line in Hrep.
    destruct (search DEF_NAME line); [reflexivity | congruence]. }
  apply search_found in Hfound. destruct Hfound as (pre & w & rest & E & M).
  unfold DEF_NAME in M.
  apply matches_Cat in M. destruct M as (k & w2 & -> & Mk & M).
  apply matches_Lit in Mk. subst k.
  apply matches_Cat in M. destruct M as (ws & w3 & -> & Mws & M).
  apply matches_plus_chr in Mws. destruct Mws as [Hws0 Hws].
  apply matches_Cat in M. destruct M as (name & paren & -> & Mname & Mparen).
  apply matches_Group in Mname. apply matches_plus_chr in Mname.
  destruct Mname as [Hname0 Hname].
  apply matches_one in Mparen. subst paren.
  exists pre, ws, name, rest. repeat split; auto. subst line. now norm.
Qed.

Lemma S009_needs_def_header_witness :
  exists pre ws name rest,
    "def Print2():" = (pre ++ "def" ++ ws ++ name ++ "(" ++ rest)%string
    /\ ws <> EmptyString /\ all_chars Char.isspace ws = true
    /\ name <> EmptyString
    /\ all_chars (any_of [Char.word; Char.one "_"%char]) name = true.
Proof.
  apply (S009_needs_def_header project "f.py" "def Print2():" 0 "def Print2():" eq_refl).
  exists (S009 "f.py" 1 "Print2"). repeat split. left. reflexivity.
Defined.

(** ** The order within one rule *)

Lemma scan_increasing (c : string) check_line (path : string) :
  stamps c check_line ->
  forall lines n, StronglySorted line_after (LineCheck.scan check_line path lines n).
Proof.
  intros Hc lines. induction lines as [| line lines IH]; intros n; simpl; [constructor |].
  destruct (check_line path line n) as [v |] eqn:E; [| apply IH].
  constructor; [apply IH |].
  destruct (Hc _ _ _ _ E) as (_ & Hl & _).
  eapply Forall_impl; [| apply (scan_stamped c check_line path Hc lines (S n))].
  simpl. intros w (_ & _ & Hw). unfold line_after. lia.
Qed.

Lemma blank_scan_increasing (path : string) (lines : list string) :
  forall rest idx,
    StronglySorted line_after (TwoManyBlankLinesCheck.scan path lines rest idx).
Proof.
  intros rest. induction rest as [| line rest IH]; intros idx; simpl; [constructor |].
  destruct (TwoManyBlankLinesCheck.fires lines line idx); [| apply IH].
  constructor; [apply IH |].
  eapply Forall_impl; [| apply (blank_scan_stamped path lines rest (S idx))].
  simpl. intros w (_ & _ & Hw). unfold line_after. simpl. lia.
Qed.

(** X20.  Each of the nine line rules returns its violations in strictly
    increasing order of [line_no]: one rule never reports one line
    twice. *)
Theorem line_rules_report_in_line_order (path source : string) (tree : AST) :
  Forall (StronglySorted line_after) (firstn 9 (found_by_rule path source tree))
  /\ Forall2 (fun (c : Check) found_here =>
                forall host, c host path source = Ok found_here)
       line_checks (firstn 9 (found_by_rule path source tree)).
Proof.
  split.
  - unfold found_by_rule, by_lines. cbn [firstn].
    repeat (apply Forall_cons || apply Forall_nil);
      try (eapply scan_increasing;
           first [ apply LengthCheck_stamps | apply IndentCheck_stamps
                 | apply SemicolonCheck_stamps | apply SpacesBeforeCommentCheck_stamps
                 | apply TodoCheck_stamps | apply ConstructionSpaceCheck_stamps
                 | apply ClassNameCheck_stamps | apply FunctionNameCheck_stamps ]).
    apply blank_scan_increasing.
  - unfold line_checks, Analyzer.checks, found_by_rule. cbn [firstn].
    repeat (apply Forall2_cons || apply Forall2_nil); reflexivity.
Qed.
